(** * Weather Data Logger (src/app.py): a shallow embedding of the
    session log, the provider client and the derived views. *)

From Stdlib Require Import String Ascii List ZArith QArith Qround Qminmax Bool Lia.
From Stdlib Require Import Sorted Permutation Qpower.
Import ListNotations.
Open Scope string_scope.
Open Scope list_scope.

Set Warnings "-register-all".

(** ** Python values

    The provider's JSON body, the log entries (Python dicts) and their
    cells are all Python values.  A dict is an association list in
    insertion order, as Python keeps it.  Floats are modelled as exact
    rationals; a datetime as an integer number of microseconds (the local
    time zone taken as UTC). *)

Inductive pyval : Type :=
| PNone
| PBool (b : bool)
| PInt (z : Z)
| PFloat (q : Q)
| PStr (s : string)
| PList (l : list pyval)
| PDict (d : list (string * pyval))
| PTime (us : Z).

Definition entry := list (string * pyval).

Fixpoint dict_lookup (d : list (string * pyval)) (k : string) : option pyval :=
  match d with
  | [] => None
  | (k', v) :: d' => if String.eqb k k' then Some v else dict_lookup d' k
  end.

Definition dict_keys (d : list (string * pyval)) : list string := map fst d.

(** Structural equality of Python values (what [unique] and [groupby]
    compare keys with; the log's cities are strings). *)
Fixpoint pyval_eqb (a b : pyval) {struct a} : bool :=
  match a, b with
  | PNone, PNone => true
  | PBool x, PBool y => Bool.eqb x y
  | PInt x, PInt y => Z.eqb x y
  | PFloat x, PFloat y => Qeq_bool x y
  | PStr x, PStr y => String.eqb x y
  | PTime x, PTime y => Z.eqb x y
  | PList xs, PList ys =>
      (fix go (xs ys : list pyval) : bool :=
         match xs, ys with
         | [], [] => true
         | x :: xs', y :: ys' => pyval_eqb x y && go xs' ys'
         | _, _ => false
         end) xs ys
  | PDict xs, PDict ys =>
      (fix go (xs ys : list (string * pyval)) : bool :=
         match xs, ys with
         | [], [] => true
         | (k, x) :: xs', (k', y) :: ys' =>
             String.eqb k k' && pyval_eqb x y && go xs' ys'
         | _, _ => false
         end) xs ys
  | _, _ => false
  end.

(** ** Exceptions

    [ReqTimeout] is [requests.exceptions.Timeout]; [ReqError] any other
    [requests.exceptions.RequestException] (connection errors, and the
    JSON decoding error of [response.json()]); [PyError name msg] any
    other built-in exception (KeyError, IndexError, TypeError, ...). *)

Inductive exn : Type :=
| ReqTimeout (msg : string)
| ReqError (msg : string)
| PyError (name msg : string).

(** [str(e)] *)
Definition exn_str (e : exn) : string :=
  match e with
  | ReqTimeout m | ReqError m | PyError _ m => m
  end.

Definition Exc (A : Type) : Type := (exn + A)%type.

Definition exc_ret {A} (a : A) : Exc A := inr a.
Definition exc_bind {A B} (m : Exc A) (k : A -> Exc B) : Exc B :=
  match m with inl e => inl e | inr a => k a end.

Notation "x <-! m ;; k" := (exc_bind m (fun x => k))
  (at level 61, m at next level, right associativity).

Definition key_error {A} (k : string) : Exc A :=
  inl (PyError "KeyError" ("'" ++ k ++ "'")%string).
Definition type_error {A} (m : string) : Exc A := inl (PyError "TypeError" m).

(** [v[k]] for a string key *)
Definition getitem (v : pyval) (k : string) : Exc pyval :=
  match v with
  | PDict d => match dict_lookup d k with Some x => inr x | None => key_error k end
  | PList _ => type_error "list indices must be integers or slices, not str"
  | _ => type_error "object is not subscriptable"
  end.

(** [v[0]] *)
Definition getitem0 (v : pyval) : Exc pyval :=
  match v with
  | PList (x :: _) => inr x
  | PList [] => inl (PyError "IndexError" "list index out of range")
  | PDict d => inl (PyError "KeyError" "0")
  | _ => type_error "object is not subscriptable"
  end.

(** [v.get(k, default)] *)
Definition dict_get (v : pyval) (k : string) (default : pyval) : Exc pyval :=
  match v with
  | PDict d => match dict_lookup d k with Some x => inr x | None => inr default end
  | _ => inl (PyError "AttributeError" "object has no attribute 'get'")
  end.

(** [v[:n]]: a prefix of a list or a string; slicing a dict raises
    (the [TypeError] of Python before 3.12; a [KeyError] since), and the
    other values are not subscriptable. *)
Definition py_slice_to (v : pyval) (n : nat) : Exc pyval :=
  match v with
  | PList l => inr (PList (firstn n l))
  | PStr s => inr (PStr (substring 0 n s))
  | PDict _ => type_error "unhashable type: 'slice'"
  | _ => type_error "object is not subscriptable"
  end.

(** Numbers as Python sees them ([bool] is a subclass of [int]). *)
Definition num_of (v : pyval) : option Q :=
  match v with
  | PBool b => Some (if b then 1 else 0)
  | PInt z => Some (inject_Z z)
  | PFloat q => Some q
  | _ => None
  end.

(** [v / n] for a nonzero integer [n]: true division always gives a float. *)
Definition py_truediv (v : pyval) (n : Z) : Exc pyval :=
  match num_of v with
  | Some q => inr (PFloat (q / inject_Z n))
  | None => type_error "unsupported operand type(s) for /"
  end.

(** Round half to even, as Python's [round] and numpy's [around] do. *)
Definition round_half_even (q : Q) : Z :=
  let f := Qfloor q in
  let r := q - inject_Z f in
  if Qlt_le_dec r (1 # 2) then f
  else if Qeq_bool r (1 # 2) then (if Z.even f then f else f + 1)
  else f + 1.

(** [datetime.fromtimestamp(v)] (seconds to microseconds). *)
Definition fromtimestamp (v : pyval) : Exc pyval :=
  match v with
  | PBool _ | PInt _ | PFloat _ =>
      match num_of v with
      | Some q => inr (PTime (round_half_even (q * inject_Z 1000000)))
      | None => type_error "an integer is required"
      end
  | _ => type_error "an integer is required"
  end.

(** ** The provider client ([get_weather_data], [get_forecast_data])

    Requests are an effect: a computation of [IO A] runs from the number
    of HTTP requests sent so far, and returns the new count together with
    its value or the exception it raised.  The [provider] answers the
    [n]-th request (its URL and query parameters given) with a response,
    a timeout or a transport failure; [now] is the clock reading of
    [datetime.now()]; [py_str] is Python's [str()] of a value. *)

Record response : Type := mk_response {
  status_code : Z;
  body : option pyval            (* [None]: the body is not JSON *)
}.

Inductive outcome : Type :=
| Responded (r : response)
| TimedOut (msg : string)
| TransportFailed (msg : string).

Definition IO (A : Type) : Type := nat -> nat * Exc A.

Definition io_ret {A} (a : A) : IO A := fun n => (n, inr a).
Definition io_bind {A B} (m : IO A) (k : A -> IO B) : IO B :=
  fun n => let (n', r) := m n in
           match r with inl e => (n', inl e) | inr a => k a n' end.
Definition io_lift {A} (m : Exc A) : IO A := fun n => (n, m).
(** [try: m except ...: h] *)
Definition io_try {A} (m : IO A) (h : exn -> IO A) : IO A :=
  fun n => let (n', r) := m n in
           match r with inl e => h e n' | inr a => (n', inr a) end.

Notation "x <- m ;; k" := (io_bind m (fun x => k))
  (at level 61, m at next level, right associativity).

(** The result triple [(success, data, error)] of the fetch functions. *)
Definition fetch_result (A : Type) : Type := (bool * option A * option string)%type.

Section Provider.

Variable provider : nat -> string -> list (string * string) -> outcome.
Variable now : Z.
Variable py_str : pyval -> string.

(** [requests.get(url, params=params, timeout=10)] *)
Definition requests_get (url : string) (params : list (string * string)) : IO response :=
  fun n => (S n, match provider n url params with
                 | Responded r => inr r
                 | TimedOut m => inl (ReqTimeout m)
                 | TransportFailed m => inl (ReqError m)
                 end).

(** [response.json()]: a body that is not JSON raises requests'
    [JSONDecodeError], a [RequestException]. *)
Definition response_json (r : response) : Exc pyval :=
  match body r with
  | Some v => inr v
  | None => inl (ReqError "Expecting value: line 1 column 1 (char 0)")
  end.

(** The [weather_entry] dict literal of [get_weather_data], its values
    evaluated left to right. *)
Definition build_weather_entry (data : pyval) : Exc entry :=
  name <-! getitem data "name" ;;
  sys <-! getitem data "sys" ;; country <-! getitem sys "country" ;;
  main <-! getitem data "main" ;; temp <-! getitem main "temp" ;;
  main2 <-! getitem data "main" ;; feels <-! getitem main2 "feels_like" ;;
  main3 <-! getitem data "main" ;; hum <-! getitem main3 "humidity" ;;
  main4 <-! getitem data "main" ;; pres <-! getitem main4 "pressure" ;;
  w <-! getitem data "weather" ;; w0 <-! getitem0 w ;;
  desc <-! getitem w0 "description" ;;
  w' <-! getitem data "weather" ;; w0' <-! getitem0 w' ;;
  mainc <-! getitem w0' "main" ;;
  wind <-! getitem data "wind" ;; speed <-! getitem wind "speed" ;;
  wind' <-! getitem data "wind" ;; deg <-! dict_get wind' "deg" (PInt 0) ;;
  vis0 <-! dict_get data "visibility" (PInt 0) ;; vis <-! py_truediv vis0 1000 ;;
  cl <-! getitem data "clouds" ;; clouds <-! getitem cl "all" ;;
  sys2 <-! getitem data "sys" ;; sr0 <-! getitem sys2 "sunrise" ;;
  sunrise <-! fromtimestamp sr0 ;;
  sys3 <-! getitem data "sys" ;; ss0 <-! getitem sys3 "sunset" ;;
  sunset <-! fromtimestamp ss0 ;;
  co <-! getitem data "coord" ;; lat <-! getitem co "lat" ;;
  co' <-! getitem data "coord" ;; lon <-! getitem co' "lon" ;;
  exc_ret [("timestamp", PTime now); ("city", name); ("country", country);
           ("temperature", temp); ("feels_like", feels); ("humidity", hum);
           ("pressure", pres); ("description", desc); ("main", mainc);
           ("wind_speed", speed); ("wind_direction", deg);
           ("visibility", vis); ("clouds", clouds); ("sunrise", sunrise);
           ("sunset", sunset); ("coord_lat", lat); ("coord_lon", lon);
           ("status", PStr "success")].

Definition weather_url : string := "http://api.openweathermap.org/data/2.5/weather".
Definition forecast_url : string := "http://api.openweathermap.org/data/2.5/forecast".
Definition query (city api_key : string) : list (string * string) :=
  [("q", city); ("appid", api_key); ("units", "metric")].

Definition get_weather_data (city api_key : string) : IO (fetch_result entry) :=
  io_try
    (response <- requests_get weather_url (query city api_key) ;;
     if Z.eqb (status_code response) 200 then
       data <- io_lift (response_json response) ;;
       weather_entry <- io_lift (build_weather_entry data) ;;
       io_ret (true, Some weather_entry, None)
     else
       err <- io_lift (response_json response) ;;
       error_msg <- io_lift (dict_get err "message" (PStr "Unknown error")) ;;
       io_ret (false, None, Some ("API Error: " ++ py_str error_msg)%string))
    (fun e => match e with
              | ReqTimeout _ => io_ret (false, None, Some "Request timed out")
              | ReqError _ => io_ret (false, None, Some ("Network error: " ++ exn_str e)%string)
              | PyError _ _ => io_ret (false, None, Some ("Error: " ++ exn_str e)%string)
              end).

Definition get_forecast_data (city api_key : string) : IO (fetch_result pyval) :=
  io_try
    (response <- requests_get forecast_url (query city api_key) ;;
     if Z.eqb (status_code response) 200 then
       data <- io_lift (response_json response) ;;
       io_ret (true, Some data, None)
     else
       err <- io_lift (response_json response) ;;
       error_msg <- io_lift (dict_get err "message" (PStr "Unknown error")) ;;
       io_ret (false, None, Some ("Forecast API Error: " ++ py_str error_msg)%string))
    (fun e => io_ret (false, None, Some ("Forecast Error: " ++ exn_str e)%string)).

(** ** The Observation Log and the session's actions

    [st.session_state.weather_logs] is a list of entry dicts.  Each
    rerun of the script handles at most one button; [handle] is what the
    buttons of the sidebar and of Tab 1 do to the log. *)

Definition add_weather_log (weather_logs : list entry) (weather_data : entry) : list entry :=
  weather_logs ++ [weather_data].

(** [datetime.now().replace(hour=h, minute=m)] on microsecond timestamps. *)
Definition time_replace_hm (t h m : Z) : Z :=
  t - t mod 86400000000 + h * 3600000000 + m * 60000000 + t mod 60000000.

(** The [demo_data] dict of the demo-mode branch of Tab 1. *)
Definition demo_data (city_input : string) : entry :=
  [("timestamp", PTime now); ("city", PStr city_input); ("country", PStr "XX");
   ("temperature", PFloat (225 # 10)); ("feels_like", PFloat (241 # 10));
   ("humidity", PInt 65); ("pressure", PInt 1013);
   ("description", PStr "partly cloudy"); ("main", PStr "Clouds");
   ("wind_speed", PFloat (32 # 10)); ("wind_direction", PInt 180);
   ("visibility", PInt 10); ("clouds", PInt 40);
   ("sunrise", PTime (time_replace_hm now 6 30));
   ("sunset", PTime (time_replace_hm now 18 45));
   ("coord_lat", PFloat (515074 # 10000)); ("coord_lon", PFloat (-1278 # 10000));
   ("status", PStr "demo")].

(** The random draws of one entry of the "Demo Weather" button. *)
Record demo_draw : Type := mk_draw {
  d_minutes : Z; d_temperature : Q; d_feels_like : Q; d_humidity : Z;
  d_pressure : Z; d_description : string; d_main : string; d_wind_speed : Q;
  d_wind_direction : Z; d_visibility : Q; d_clouds : Z; d_sunrise_minute : Z;
  d_sunset_minute : Z; d_lat : Q; d_lon : Q
}.

Definition demo_cities : list string := ["London"; "Paris"; "New York"; "Tokyo"; "Mumbai"].

Definition demo_batch_entry (city : string) (r : demo_draw) : entry :=
  [("timestamp", PTime (now - d_minutes r * 60000000)); ("city", PStr city);
   ("country", PStr "XX"); ("temperature", PFloat (d_temperature r));
   ("feels_like", PFloat (d_feels_like r)); ("humidity", PInt (d_humidity r));
   ("pressure", PInt (d_pressure r)); ("description", PStr (d_description r));
   ("main", PStr (d_main r)); ("wind_speed", PFloat (d_wind_speed r));
   ("wind_direction", PInt (d_wind_direction r));
   ("visibility", PFloat (d_visibility r)); ("clouds", PInt (d_clouds r));
   ("sunrise", PTime (time_replace_hm now 6 (d_sunrise_minute r)));
   ("sunset", PTime (time_replace_hm now 18 (d_sunset_minute r)));
   ("coord_lat", PFloat (d_lat r)); ("coord_lon", PFloat (d_lon r));
   ("status", PStr "demo")].

(** [for city in demo_cities: ... add_weather_log(demo_data)], one draw per city. *)
Fixpoint demo_batch (weather_logs : list entry) (cities : list string)
    (draws : list demo_draw) : list entry :=
  match cities, draws with
  | c :: cs, r :: rs => demo_batch (add_weather_log weather_logs (demo_batch_entry c r)) cs rs
  | _, _ => weather_logs
  end.

(** "Get Weather": [if get_weather and city_input and api_key: ...]. *)
Definition tab1_get_weather (weather_logs : list entry) (city_input api_key : string)
    : IO (list entry) :=
  if negb (String.eqb city_input "") && negb (String.eqb api_key "") then
    if String.eqb api_key "demo_mode" then
      io_ret (add_weather_log weather_logs (demo_data city_input))
    else
      res <- get_weather_data city_input api_key ;;
      let '(success, weather_data, _) := res in
      if success then
        match weather_data with
        | Some w => io_ret (add_weather_log weather_logs w)
        | None => io_ret weather_logs     (* unreachable: success carries data *)
        end
      else io_ret weather_logs            (* st.error(...) *)
  else io_ret weather_logs.

(** "Batch Cities": one request per city of [favorite_cities[:3]]. *)
Fixpoint batch_fetch (weather_logs : list entry) (cities : list string) (api_key : string)
    : IO (list entry) :=
  match cities with
  | [] => io_ret weather_logs
  | city :: cs =>
      res <- get_weather_data city api_key ;;
      let '(success, weather_data, _) := res in
      let logs' := match success, weather_data with
                   | true, Some w => add_weather_log weather_logs w
                   | _, _ => weather_logs
                   end in
      batch_fetch logs' cs api_key
  end.

Inductive ui_event : Type :=
| GetWeather (city_input api_key : string)
| DemoWeather (draws : list demo_draw)
| BatchCities (api_key : string) (favorite_cities : list string)
| ClearLogs
| Rerun.

Definition handle (ev : ui_event) (weather_logs : list entry) : IO (list entry) :=
  match ev with
  | GetWeather city_input api_key => tab1_get_weather weather_logs city_input api_key
  | DemoWeather draws => io_ret (demo_batch weather_logs demo_cities draws)
  | BatchCities api_key favs =>
      if negb (String.eqb api_key "demo_mode") && negb (String.eqb api_key "")
      then batch_fetch weather_logs (firstn 3 favs) api_key
      else io_ret weather_logs
  | ClearLogs => io_ret []
  | Rerun => io_ret weather_logs
  end.

(** "Get 5-Day Forecast" (Tab 3), up to the value its loop iterates
    over, [forecast_data['list'][:20]] (the source file ends at the loop
    header).  [None]: the button's guard is false, or the fetch failed
    and the loop is not reached.  The subscript and the slice are outside
    the [try] of [get_forecast_data]: what they raise is not caught. *)
Definition tab3_get_forecast (forecast_city api_key : string) : IO (option pyval) :=
  if negb (String.eqb forecast_city "") && negb (String.eqb api_key "")
     && negb (String.eqb api_key "demo_mode") then
    res <- get_forecast_data forecast_city api_key ;;
    let '(success, forecast_data, _) := res in
    if success then
      match forecast_data with
      | Some d => items <- io_lift (getitem d "list") ;;
                  sliced <- io_lift (py_slice_to items 20) ;;
                  io_ret (Some sliced)
      | None => io_ret None
      end
    else io_ret None
  else io_ret None.

End Provider.

(** One rerun of the script changes the log from [l] to [l']. *)
Definition session_step (l l' : list entry) : Prop :=
  exists provider now py_str ev n n',
    handle provider now py_str ev l n = (n', inr l').

(** Logs reachable from the empty log of a new session. *)
Inductive reachable : list entry -> Prop :=
| reach_start : reachable []
| reach_step : forall l l', reachable l -> session_step l l' -> reachable l'.

(** ** The pandas DataFrame of the log

    [pd.DataFrame(weather_logs)] has as columns the union of the entries'
    keys in order of first appearance; a row's cell for a key its dict
    lacks is a missing value (shown as [PNone]). *)

Definition add_column (cols : list string) (k : string) : list string :=
  if existsb (String.eqb k) cols then cols else cols ++ [k].

Definition df_columns (weather_logs : list entry) : list string :=
  fold_left (fun cols e => fold_left add_column (dict_keys e) cols) weather_logs [].

Definition df_cell (row : entry) (k : string) : pyval :=
  match dict_lookup row k with Some v => v | None => PNone end.

(** [row[k]] of [df.iterrows()] *)
Definition row_get (cols : list string) (row : entry) (k : string) : Exc pyval :=
  if existsb (String.eqb k) cols then inr (df_cell row k) else key_error k.

(** [df[k]] *)
Definition df_column (weather_logs : list entry) (k : string) : Exc (list pyval) :=
  if existsb (String.eqb k) (df_columns weather_logs)
  then inr (map (fun row => df_cell row k) weather_logs)
  else key_error k.

(** [Series.unique()] *)
Fixpoint py_unique_acc (seen : list pyval) (vs : list pyval) : list pyval :=
  match vs with
  | [] => rev seen
  | v :: vs' =>
      if existsb (pyval_eqb v) seen then py_unique_acc seen vs'
      else py_unique_acc (v :: seen) vs'
  end.
Definition py_unique (vs : list pyval) : list pyval := py_unique_acc [] vs.

(** [a > c] and [a < c] against a numeric constant *)
Definition Qltb (x y : Q) : bool := negb (Qle_bool y x).

Definition py_gt (v : pyval) (c : Q) : Exc bool :=
  match num_of v with
  | Some q => inr (Qltb c q)
  | None => type_error "'>' not supported between instances"
  end.

Definition py_lt (v : pyval) (c : Q) : Exc bool :=
  match num_of v with
  | Some q => inr (Qltb q c)
  | None => type_error "'<' not supported between instances"
  end.

(** ** Latest observation (Tab 1 "Latest Weather" panel) *)

(** [if weather_logs: latest = weather_logs[-1]] *)
Definition latest_weather (weather_logs : list entry) : option entry :=
  match weather_logs with
  | [] => None
  | _ :: _ => nth_error weather_logs (length weather_logs - 1)
  end.

(** Sidebar quick stats: total logs, distinct cities, latest temperature. *)
Definition quick_stats (weather_logs : list entry) : Exc (option (nat * nat * pyval)) :=
  match weather_logs with
  | [] => inr None
  | _ :: _ =>
      cities <-! (fix go (l : list entry) : Exc (list pyval) :=
                    match l with
                    | [] => inr []
                    | e :: l' => c <-! getitem (PDict e) "city" ;;
                                 cs <-! go l' ;; inr (c :: cs)
                    end) weather_logs ;;
      last <-! (match nth_error weather_logs (length weather_logs - 1) with
                | Some e => inr e
                | None => inl (PyError "IndexError" "list index out of range")
                end) ;;
      t <-! getitem (PDict last) "temperature" ;;
      inr (Some (length weather_logs, length (py_unique cities), t))
  end.

(** ** Weather alerts (Tab 2)

    The alert strings of the source are rendered from a kind, the row's
    city and the value that triggered it. *)

Inductive alert : Type :=
| ExtremeHeat (city temperature : pyval)
| ExtremeCold (city temperature : pyval)
| StrongWind (city wind_speed : pyval)
| HighHumidity (city humidity : pyval).

(** The body of [for _, row in df.iterrows(): if ... elif ... elif ... elif ...]. *)
Definition row_alert (cols : list string) (row : entry) : Exc (option alert) :=
  t <-! row_get cols row "temperature" ;;
  hot <-! py_gt t 35 ;;
  if hot then
    c <-! row_get cols row "city" ;; inr (Some (ExtremeHeat c t))
  else
    cold <-! py_lt t (-10) ;;
    if cold then
      c <-! row_get cols row "city" ;; inr (Some (ExtremeCold c t))
    else
      w <-! row_get cols row "wind_speed" ;;
      windy <-! py_gt w 15 ;;
      if windy then
        c <-! row_get cols row "city" ;; inr (Some (StrongWind c w))
      else
        h <-! row_get cols row "humidity" ;;
        humid <-! py_gt h 90 ;;
        if humid then
          c <-! row_get cols row "city" ;; inr (Some (HighHumidity c h))
        else inr None.

Fixpoint alert_rows (cols : list string) (rows : list entry) : Exc (list alert) :=
  match rows with
  | [] => inr []
  | row :: rows' =>
      a <-! row_alert cols row ;;
      rest <-! alert_rows cols rows' ;;
      inr (match a with Some x => x :: rest | None => rest end)
  end.

Definition alert_scan (weather_logs : list entry) : Exc (list alert) :=
  alert_rows (df_columns weather_logs) weather_logs.

(** [alerts[-5:]] *)
Definition py_last_n {A} (n : nat) (l : list A) : list A := skipn (length l - n) l.

Inductive alert_panel : Type :=
| AlertsShown (shown : list alert)
| NoAlertsNow.

Definition alerts_panel (weather_logs : list entry) : Exc alert_panel :=
  alerts <-! alert_scan weather_logs ;;
  match alerts with
  | [] => inr NoAlertsNow
  | _ :: _ => inr (AlertsShown (py_last_n 5 alerts))
  end.

(** ** City comparison (Tab 2)

    [df.groupby('city').agg({'temperature': ['mean','min','max'],
    'humidity': 'mean', 'wind_speed': 'mean', 'pressure': 'mean'}).round(2)],
    computed only [if len(df['city'].unique()) > 1]. *)

Record city_row : Type := mk_city_row {
  avg_temp : Q; min_temp : Q; max_temp : Q;
  avg_humidity : Q; avg_wind : Q; avg_pressure : Q
}.

Definition q_sum (l : list Q) : Q := fold_right Qplus 0 l.
Definition q_mean (l : list Q) : Q := q_sum l / inject_Z (Z.of_nat (length l)).
Definition q_min (l : list Q) : Q :=
  match l with [] => 0 | x :: l' => fold_left Qmin l' x end.
Definition q_max (l : list Q) : Q :=
  match l with [] => 0 | x :: l' => fold_left Qmax l' x end.

(** [.round(2)] *)
Definition round2 (q : Q) : Q := Qmake (round_half_even (q * 100)) 100.

Fixpoint nums_of (vs : list pyval) : Exc (list Q) :=
  match vs with
  | [] => inr []
  | v :: vs' =>
      match num_of v with
      | Some q => qs <-! nums_of vs' ;; inr (q :: qs)
      | None => type_error "could not convert to numeric"
      end
  end.

(** Python's [<] between two group keys (used to sort them). *)
Definition py_lt_keys (a b : pyval) : Exc bool :=
  match a, b with
  | PStr x, PStr y => inr (String.ltb x y)
  | PTime x, PTime y => inr (Z.ltb x y)
  | _, _ =>
      match num_of a, num_of b with
      | Some x, Some y => inr (Qltb x y)
      | _, _ => type_error "'<' not supported between instances"
      end
  end.

Fixpoint py_insert (x : pyval) (l : list pyval) : Exc (list pyval) :=
  match l with
  | [] => inr [x]
  | y :: l' =>
      b <-! py_lt_keys x y ;;
      if b then inr (x :: l) else (r <-! py_insert x l' ;; inr (y :: r))
  end.

Fixpoint py_sort (l : list pyval) : Exc (list pyval) :=
  match l with
  | [] => inr []
  | x :: l' => s <-! py_sort l' ;; py_insert x s
  end.

Definition is_none (v : pyval) : bool := match v with PNone => true | _ => false end.

Definition group_rows (weather_logs : list entry) (key : pyval) : list entry :=
  filter (fun row => pyval_eqb (df_cell row "city") key) weather_logs.

Definition group_stats (rows : list entry) : Exc city_row :=
  ts <-! nums_of (map (fun r => df_cell r "temperature") rows) ;;
  hs <-! nums_of (map (fun r => df_cell r "humidity") rows) ;;
  ws <-! nums_of (map (fun r => df_cell r "wind_speed") rows) ;;
  ps <-! nums_of (map (fun r => df_cell r "pressure") rows) ;;
  inr (mk_city_row (round2 (q_mean ts)) (round2 (q_min ts)) (round2 (q_max ts))
                   (round2 (q_mean hs)) (round2 (q_mean ws)) (round2 (q_mean ps))).

Fixpoint require_columns (cols : list string) (needed : list string) : Exc unit :=
  match needed with
  | [] => inr tt
  | k :: ks => if existsb (String.eqb k) cols then require_columns cols ks
               else key_error k
  end.

Fixpoint stats_rows (weather_logs : list entry) (keys : list pyval)
    : Exc (list (pyval * city_row)) :=
  match keys with
  | [] => inr []
  | k :: ks => s <-! group_stats (group_rows weather_logs k) ;;
               rest <-! stats_rows weather_logs ks ;; inr ((k, s) :: rest)
  end.

Definition city_stats (weather_logs : list entry) : Exc (option (list (pyval * city_row))) :=
  cities <-! df_column weather_logs "city" ;;
  if Nat.ltb 1 (length (py_unique cities)) then
    _ <-! require_columns (df_columns weather_logs)
                          ["temperature"; "humidity"; "wind_speed"; "pressure"] ;;
    keys <-! py_sort (py_unique (filter (fun c => negb (is_none c)) cities)) ;;
    rows <-! stats_rows weather_logs keys ;;
    inr (Some rows)
  else inr None.

(** ** Condition distribution (Tab 2): [df['main'].value_counts()],
    counts in decreasing order, ties in order of first appearance. *)

Definition count_val (v : pyval) (vs : list pyval) : nat := length (filter (pyval_eqb v) vs).

Fixpoint insert_count (x : pyval * nat) (l : list (pyval * nat)) : list (pyval * nat) :=
  match l with
  | [] => [x]
  | y :: l' => if Nat.ltb (snd y) (snd x) then x :: l else y :: insert_count x l'
  end.

Definition value_counts (vs : list pyval) : list (pyval * nat) :=
  let present := filter (fun v => negb (is_none v)) vs in
  fold_left (fun acc v => insert_count (v, count_val v present) acc) (py_unique present) [].

(** ** Tab 2 as a whole *)

Record analytics : Type := mk_analytics {
  condition_counts : list (pyval * nat);
  city_table : option (list (pyval * city_row));
  alerts_view : alert_panel
}.

Inductive tab2_view : Type :=
| NoAnalyticsData                 (* "No data for analytics yet" *)
| Analytics (a : analytics).

(** The columns the charts of Tab 2 plot ([px.line], [px.scatter],
    [px.histogram] raise when one is missing). *)
Definition chart_columns : list string :=
  ["timestamp"; "temperature"; "city"; "humidity"; "wind_speed"].

Definition analytics_tab (weather_logs : list entry) : Exc tab2_view :=
  match weather_logs with
  | [] => inr NoAnalyticsData
  | _ :: _ =>
      _ <-! require_columns (df_columns weather_logs) chart_columns ;;
      mains <-! df_column weather_logs "main" ;;
      table <-! city_stats weather_logs ;;
      panel <-! alerts_panel weather_logs ;;
      inr (Analytics (mk_analytics (value_counts mains) table panel))
  end.

(** ** CSV export ([save_weather_logs_csv])

    [pd.DataFrame(weather_logs).to_csv(index=False)] writes a header of the
    columns and one line per entry through Python's [csv] writer: fields
    separated by commas, lines ended by a newline, and a field quoted
    (inner quotes doubled) when it holds a comma, a quote or a line break
    (QUOTE_MINIMAL).  A cell is written according to the dtype pandas
    infers for its whole column: an int64 column as [str] of each int; a
    float64 column (numbers, possibly with missing cells) as [repr] of
    each float, an int of that column first turned into a float; an
    object column as [str] of each value.  A missing value is written as
    the empty string, a bool as [True]/[False], a string as it is. *)

Definition quote_char : ascii := ascii_of_nat 34.
Definition comma_char : ascii := ascii_of_nat 44.
Definition nl_char : ascii := ascii_of_nat 10.
Definition cr_char : ascii := ascii_of_nat 13.

Definition special_char (c : ascii) : bool :=
  Ascii.eqb c comma_char || Ascii.eqb c quote_char || Ascii.eqb c nl_char
  || Ascii.eqb c cr_char.

Definition needs_quote (f : list ascii) : bool := existsb special_char f.

Fixpoint double_quotes (f : list ascii) : list ascii :=
  match f with
  | [] => []
  | c :: f' => if Ascii.eqb c quote_char then quote_char :: quote_char :: double_quotes f'
               else c :: double_quotes f'
  end.

Definition csv_field (f : list ascii) : list ascii :=
  if needs_quote f then quote_char :: double_quotes f ++ [quote_char] else f.

Fixpoint join_fields (fs : list (list ascii)) : list ascii :=
  match fs with
  | [] => []
  | [f] => csv_field f
  | f :: fs' => csv_field f ++ comma_char :: join_fields fs'
  end.

(** [csv.writer.writerow]: a row made of one empty field is written [""]. *)
Definition csv_line (fs : list (list ascii)) : list ascii :=
  match fs with
  | [[]] => [quote_char; quote_char; nl_char]
  | _ => join_fields fs ++ [nl_char]
  end.

(** *** Decimal text of numbers *)

Definition digit_char (d : Z) : ascii := ascii_of_nat (48 + Z.to_nat d).

Definition is_digit (c : ascii) : bool :=
  Nat.leb 48 (nat_of_ascii c) && Nat.leb (nat_of_ascii c) 57.

Definition digit_val (c : ascii) : Z := (Z.of_nat (nat_of_ascii c) - 48)%Z.

(** The [k] lowest decimal digits of [x], most significant first. *)
Fixpoint fixed_digits (k : nat) (x : Z) : list ascii :=
  match k with
  | O => []
  | S k' => fixed_digits k' (x / 10) ++ [digit_char (x mod 10)]
  end.

Fixpoint ndigits_aux (fuel : nat) (x : Z) : nat :=
  match fuel with
  | O => 1
  | S f => if Z.ltb x 10 then 1 else S (ndigits_aux f (x / 10))
  end.

(** The number of decimal digits of [x >= 0] (one for 0). *)
Definition ndigits (x : Z) : nat := ndigits_aux (S (Z.to_nat (Z.log2 x))) x.

Definition dec_digits (x : Z) : list ascii := fixed_digits (ndigits x) x.

Definition sign_text (neg : bool) : list ascii := if neg then ["-"%char] else [].

(** [str] of an int. *)
Definition int_text (z : Z) : string :=
  string_of_list_ascii (sign_text (Z.ltb z 0) ++ dec_digits (Z.abs z)).

(** [strip2 p = (a, r)]: [p = 2^a * r] with [r] odd. *)
Fixpoint strip2 (p : positive) : nat * positive :=
  match p with
  | xO p' => let (a, r) := strip2 p' in (S a, r)
  | _ => (O, p)
  end.

(** [strip_by b fuel x = (c, r)]: [x = b^c * r], [r] not divisible by [b]
    when the fuel suffices. *)
Fixpoint strip_by (b : Z) (fuel : nat) (x : Z) : nat * Z :=
  match fuel with
  | O => (O, x)
  | S f => if Z.eqb (x mod b) 0 then let (c, r) := strip_by b f (x / b) in (S c, r)
           else (O, x)
  end.

(** A rational with a finite decimal expansion as [m / 10^k], [k] as small
    as possible: the reduced denominator must be [2^a * 5^b]. *)
Definition decimal_of (q : Q) : option (Z * nat) :=
  let q' := Qred q in
  let (a, r1) := strip2 (Qden q') in
  let (b, r2) := strip_by 5 (Pos.to_nat (Pos.size r1)) (Zpos r1) in
  if Z.eqb r2 1 then
    let k := Nat.max a b in
    Some ((Qnum q' * 2 ^ Z.of_nat (k - a) * 5 ^ Z.of_nat (k - b))%Z, k)
  else None.

(** The exponent of [repr] of a float: a sign and at least two digits. *)
Definition exp_text (e : Z) : list ascii :=
  (if Z.ltb e 0 then "-" else "+")%char
    :: fixed_digits (Nat.max 2 (ndigits (Z.abs e))) (Z.abs e).

(** [repr] of the float [x / 10^k] ([x >= 0]): its shortest digits
    [s * 10^t], in positional notation when the decimal exponent [e] of the
    leading digit is in [-4, 16), with at least one digit after the point,
    and in scientific notation otherwise. *)
Definition float_digits (x : Z) (k : nat) : list ascii :=
  let (t, s) := strip_by 10 (Pos.to_nat (Pos.size (Z.to_pos x))) x in
  let ns := ndigits s in
  let e := (Z.of_nat ns - 1 + Z.of_nat t - Z.of_nat k)%Z in
  if Z.eqb x 0 || (Z.leb (-4) e && Z.ltb e 16) then
    dec_digits (x / 10 ^ Z.of_nat k) ++
      "."%char :: (match k with O => ["0"%char] | _ => fixed_digits k x end)
  else
    digit_char (s / 10 ^ Z.of_nat (ns - 1)) ::
      (match ns with S O => [] | _ => "."%char :: fixed_digits (ns - 1) s end) ++
      "e"%char :: exp_text e.

Definition decimal_text (m : Z) (k : nat) : string :=
  string_of_list_ascii (sign_text (Z.ltb m 0) ++ float_digits (Z.abs m) k).

(** [repr] of a float.  Floats are exact rationals here, and every float
    of the machine is a finite decimal; [None] for a rational that is not,
    whose text the model leaves to [fmt_other]. *)
Definition float_repr (q : Q) : option string :=
  match decimal_of q with
  | Some (m, k) => Some (decimal_text m k)
  | None => None
  end.

(** A value that some power of ten turns into an integer. *)
Definition finite_decimal (q : Q) : Prop :=
  exists (m : Z) (j : nat), (q * inject_Z (10 ^ Z.of_nat j) == inject_Z m)%Q.

(** *** Column dtypes *)

Inductive dtype : Type := DInt | DFloat | DObject.

Definition is_int_val (v : pyval) : bool :=
  match v with PInt _ => true | _ => false end.

Definition is_num_val (v : pyval) : bool :=
  match v with PInt _ | PFloat _ => true | _ => false end.

Definition is_num_or_none (v : pyval) : bool :=
  match v with PInt _ | PFloat _ | PNone => true | _ => false end.

(** The dtype pandas infers for a column (missing cells included as
    [PNone]): int64 when every cell is an int, float64 when every cell is
    a number or missing and one is a number, object otherwise (datetime
    and bool columns are written like object ones here). *)
Definition col_dtype (col : list pyval) : dtype :=
  if forallb is_int_val col then DInt
  else if forallb is_num_or_none col && existsb is_num_val col then DFloat
  else DObject.

Section CsvExport.

(** pandas' text of a datetime, list or dict cell, or of a rational with no
    finite decimal expansion; it may depend on the whole column (a datetime
    column whose times are all midnight is written as bare dates). *)
Variable fmt_other : list pyval -> pyval -> string.

(** The text of a cell [v] of the column [col]. *)
Definition fmt_cell (col : list pyval) (v : pyval) : string :=
  match v with
  | PNone => ""
  | PBool b => if b then "True" else "False"
  | PInt z => match col_dtype col with
              | DFloat => decimal_text z 0
              | _ => int_text z
              end
  | PFloat q => match float_repr q with Some t => t | None => fmt_other col v end
  | PStr s => s
  | _ => fmt_other col v
  end.

Definition csv_cell (weather_logs : list entry) (row : entry) (k : string) : string :=
  match dict_lookup row k with
  | Some v => fmt_cell (map (fun r => df_cell r k) weather_logs) v
  | None => ""
  end.

Definition csv_rows (weather_logs : list entry) : list (list string) :=
  let cols := df_columns weather_logs in
  cols :: map (fun row => map (csv_cell weather_logs row) cols) weather_logs.

Definition save_weather_logs_csv (weather_logs : list entry) : string :=
  match weather_logs with
  | [] => ""
  | _ :: _ =>
      string_of_list_ascii
        (concat (map (fun r => csv_line (map list_ascii_of_string r))
                     (csv_rows weather_logs)))
  end.

End CsvExport.

(** A quote-aware CSV reader (the reading side, as Python's [csv.reader]
    with the same dialect), used to re-parse an export. *)

Inductive csv_state : Type := FieldStart | Unquoted | Quoted | QuoteEnd.

Fixpoint csv_scan (st : csv_state) (fld : list ascii) (row : list (list ascii))
    (s : list ascii) : list (list (list ascii)) :=
  match s with
  | [] =>
      match st, fld, row with
      | FieldStart, [], [] => []
      | _, _, _ => [rev (rev fld :: row)]
      end
  | c :: s' =>
      match st with
      | FieldStart =>
          if Ascii.eqb c quote_char then csv_scan Quoted [] row s'
          else if Ascii.eqb c comma_char then csv_scan FieldStart [] ([] :: row) s'
          else if Ascii.eqb c nl_char then rev ([] :: row) :: csv_scan FieldStart [] [] s'
          else csv_scan Unquoted [c] row s'
      | Unquoted | QuoteEnd =>
          if Ascii.eqb c comma_char then csv_scan FieldStart [] (rev fld :: row) s'
          else if Ascii.eqb c nl_char then rev (rev fld :: row) :: csv_scan FieldStart [] [] s'
          else if (match st with QuoteEnd => Ascii.eqb c quote_char | _ => false end)
          then csv_scan Quoted (quote_char :: fld) row s'
          else csv_scan Unquoted (c :: fld) row s'
      | Quoted =>
          if Ascii.eqb c quote_char then csv_scan QuoteEnd fld row s'
          else csv_scan Quoted (c :: fld) row s'
      end
  end.

Definition csv_read (s : string) : list (list string) :=
  map (map string_of_list_ascii) (csv_scan FieldStart [] [] (list_ascii_of_string s)).

(** Python's [float] on a field text [-ddd.ddde+dd], the sign, the
    fraction and the exponent optional (at least one mantissa digit). *)

Fixpoint span_digits (cs : list ascii) : list ascii * list ascii :=
  match cs with
  | c :: cs' => if is_digit c then let (d, r) := span_digits cs' in (c :: d, r) else ([], cs)
  | [] => ([], [])
  end.

Definition digits_value (ds : list ascii) : Z :=
  fold_left (fun acc c => acc * 10 + digit_val c)%Z ds 0%Z.

Definition sign_split (cs : list ascii) : bool * list ascii :=
  match cs with
  | c :: r => if Ascii.eqb c "-"%char then (true, r) else (false, cs)
  | [] => (false, [])
  end.

Definition frac_split (cs : list ascii) : list ascii * list ascii :=
  match cs with
  | c :: r => if Ascii.eqb c "."%char then span_digits r else ([], cs)
  | [] => ([], [])
  end.

Definition parse_exp (cs : list ascii) : option (Z * list ascii) :=
  match cs with
  | [] => Some (0%Z, [])
  | c :: r =>
      if Ascii.eqb c "e"%char || Ascii.eqb c "E"%char then
        let '(neg, r') :=
          match r with
          | s :: r'' => if Ascii.eqb s "-"%char then (true, r'')
                        else if Ascii.eqb s "+"%char then (false, r'') else (false, r)
          | [] => (false, r)
          end in
        let '(ed, r3) := span_digits r' in
        match ed with
        | [] => None
        | _ => Some ((if neg then - digits_value ed else digits_value ed)%Z, r3)
        end
      else Some (0%Z, cs)
  end.

Definition parse_num (s : string) : option Q :=
  let '(neg, r0) := sign_split (list_ascii_of_string s) in
  let '(ip, r1) := span_digits r0 in
  let '(fp, r2) := frac_split r1 in
  match parse_exp r2, ip ++ fp with
  | Some (e, []), _ :: _ =>
      Some ((if neg then -1 else 1) * inject_Z (digits_value (ip ++ fp))
            * Qpower (inject_Z 10) (e - Z.of_nat (length fp))%Z)%Q
  | _, _ => None
  end.

(** ** The forecast series (Tab 3) *)

Record ForecastPoint : Type := mk_point { fp_time : Z; fp_temperature : Q }.

(** Modelled from the spec: the body of the Tab 3 loop
    [for item in forecast_data['list'][:20]:] (the source file ends at
    that line).  Section 4.1 of the spec: the client keeps the points
    whose time falls within the forward window of 12 hours from the call
    time [now] (Unix seconds) and returns at most 12 of them, in the
    provider's order. *)
Definition forecast_window : Z := 12 * 3600.

Definition in_forecast_window (now t : Z) : bool :=
  Z.leb now t && Z.leb t (now + forecast_window).

Definition forecast_series (now : Z) (buckets : list ForecastPoint) : list ForecastPoint :=
  firstn 12 (filter (fun p => in_forecast_window now (fp_time p)) (firstn 20 buckets)).

(** ** Weather emoji ([get_weather_emoji]) *)

(** [str.lower()] on the ASCII letters; other bytes are kept. *)
Definition lower_ascii (c : ascii) : ascii :=
  let n := nat_of_ascii c in
  if Nat.leb 65 n && Nat.leb n 90 then ascii_of_nat (n + 32) else c.

Definition py_lower (s : string) : string :=
  string_of_list_ascii (map lower_ascii (list_ascii_of_string s)).

(** [sub in s] on strings. *)
Definition py_in (sub s : string) : bool :=
  match String.index 0 sub s with Some _ => true | None => false end.

Definition get_weather_emoji (description : string) : string :=
  let description := py_lower description in
  if py_in "clear" description then "☀️"
  else if py_in "cloud" description then "☁️"
  else if py_in "rain" description || py_in "drizzle" description then "🌧️"
  else if py_in "snow" description then "❄️"
  else if py_in "thunder" description then "⛈️"
  else if py_in "mist" description || py_in "fog" description then "🌫️"
  else "🌤️".

(** The words [get_weather_emoji] looks for. *)
Definition emoji_keywords : list string :=
  ["clear"; "cloud"; "rain"; "drizzle"; "snow"; "thunder"; "mist"; "fog"].

(** ** Vocabulary of the properties *)

(** The keys of every entry the program logs (live and demo), in order. *)
Definition weather_keys : list string :=
  ["timestamp"; "city"; "country"; "temperature"; "feels_like"; "humidity";
   "pressure"; "description"; "main"; "wind_speed"; "wind_direction";
   "visibility"; "clouds"; "sunrise"; "sunset"; "coord_lat"; "coord_lon"; "status"].

(** The prefixes [get_weather_data] puts on its error messages. *)
Definition error_tags : list string :=
  ["API Error: "; "Request timed out"; "Network error: "; "Error: "].

Definition tagged_error (msg : string) : Prop :=
  exists tag rest, In tag error_tags /\ msg = (tag ++ rest)%string.

(** Order-preserving sub-sequence. *)
Inductive subseq {A : Type} : list A -> list A -> Prop :=
| subseq_nil : subseq [] []
| subseq_skip : forall x l l', subseq l l' -> subseq l (x :: l')
| subseq_take : forall x l l', subseq l l' -> subseq (x :: l) (x :: l').

(** A row the alert rules and the statistics can read: a city string
    and numeric temperature, humidity, wind speed and pressure. *)
Definition numeric_row (row : entry) : Prop :=
  (exists c, dict_lookup row "city" = Some (PStr c)) /\
  forall k, In k ["temperature"; "humidity"; "wind_speed"; "pressure"] ->
    exists v q, dict_lookup row k = Some v /\ num_of v = Some q.

(** The numeric value of a cell (0 for a non-number). *)
Definition cell_num (row : entry) (k : string) : Q :=
  match num_of (df_cell row k) with Some q => q | None => 0 end.

(** The alert of an entry under the if/elif chain, on numbers. *)
Definition first_rule_alert (row : entry) : option alert :=
  let c := df_cell row "city" in
  let t := cell_num row "temperature" in
  if Qltb 35 t then Some (ExtremeHeat c (df_cell row "temperature"))
  else if Qltb t (-10) then Some (ExtremeCold c (df_cell row "temperature"))
  else if Qltb 15 (cell_num row "wind_speed") then Some (StrongWind c (df_cell row "wind_speed"))
  else if Qltb 90 (cell_num row "humidity") then Some (HighHumidity c (df_cell row "humidity"))
  else None.

(** The statistics of a city from its entries, on numbers. *)
Definition expected_city_row (rows : list entry) : city_row :=
  let col k := map (fun r => cell_num r k) rows in
  mk_city_row (round2 (q_mean (col "temperature"))) (round2 (q_min (col "temperature")))
              (round2 (q_max (col "temperature"))) (round2 (q_mean (col "humidity")))
              (round2 (q_mean (col "wind_speed"))) (round2 (q_mean (col "pressure"))).

(** The fields of an OpenWeatherMap current-weather body. *)
Definition owm_fields (temp wind_speed : pyval) (wind_extra rest : list (string * pyval))
    : list (string * pyval) :=
  [("coord", PDict [("lon", PFloat (-1278 # 10000)); ("lat", PFloat (515074 # 10000))]);
   ("weather", PList [PDict [("main", PStr "Clear"); ("description", PStr "clear sky")]]);
   ("main", PDict [("temp", temp); ("feels_like", temp); ("pressure", PInt 1012);
                   ("humidity", PInt 40)]);
   ("wind", PDict ([("speed", wind_speed)] ++ wind_extra));
   ("clouds", PDict [("all", PInt 0)]);
   ("sys", PDict [("country", PStr "GB"); ("sunrise", PInt 1700000000);
                  ("sunset", PInt 1700030000)]);
   ("name", PStr "London")] ++ rest.

(** An OpenWeatherMap current-weather body. *)
Definition owm_body (temp wind_speed : pyval) (wind_extra rest : list (string * pyval)) : pyval :=
  PDict (owm_fields temp wind_speed wind_extra rest).

Definition owm_provider (b : pyval) : nat -> string -> list (string * string) -> outcome :=
  fun _ _ _ => Responded (mk_response 200 (Some b)).

(** A draw of the demo batch with a given temperature. *)
Definition sample_draw (t : Q) : demo_draw :=
  mk_draw 0%Z t t 50%Z 1013%Z "clear sky" "Clear" (3 # 1) 90%Z (10 # 1) 20%Z 30%Z 45%Z
          (515074 # 10000) (-1278 # 10000).

(** A log holding three London entries at 10, 20 and 30 degrees and one
    Paris entry. *)
Definition sample_city_log : list entry :=
  [demo_batch_entry 0%Z "London" (sample_draw 10); demo_batch_entry 0%Z "London" (sample_draw 20);
   demo_batch_entry 0%Z "London" (sample_draw 30); demo_batch_entry 0%Z "Paris" (sample_draw 15)].

(** * Properties *)

(** ** The Observation Log *)

Lemma fold_add_weather_log : forall es acc,
  fold_left add_weather_log es acc = acc ++ es.
Proof.
  induction es as [|e es IH]; intros acc; simpl.
  - now rewrite app_nil_r.
  - rewrite IH. unfold add_weather_log. now rewrite <- app_assoc.
Qed.

Lemma demo_batch_appends : forall now cities draws weather_logs,
  exists added, demo_batch now weather_logs cities draws = weather_logs ++ added.
Proof.
  intros now. induction cities as [|c cs IH]; intros draws l.
  - exists []. destruct draws; simpl; now rewrite app_nil_r.
  - destruct draws as [|r rs].
    + exists []. simpl. now rewrite app_nil_r.
    + simpl. destruct (IH rs (add_weather_log l (demo_batch_entry now c r))) as [added E].
      rewrite E. exists (demo_batch_entry now c r :: added).
      unfold add_weather_log. now rewrite <- app_assoc.
Qed.

Lemma batch_fetch_appends : forall provider now py_str api_key cities weather_logs n n' l',
  batch_fetch provider now py_str weather_logs cities api_key n = (n', inr l') ->
  exists added, l' = weather_logs ++ added.
Proof.
  intros provider now py_str key. induction cities as [|c cs IH]; intros l n n' l' H.
  - simpl in H. inversion H. exists []. now rewrite app_nil_r.
  - cbn [batch_fetch] in H. unfold io_bind in H.
    destruct (get_weather_data provider now py_str c key n) as [n1 [ex|[[s w] m]]];
      [discriminate H|].
    destruct s, w as [w|];
      try (apply IH in H; destruct H as [added ->]; exists added; reflexivity).
    apply IH in H. destruct H as [added ->]. exists (w :: added).
    unfold add_weather_log. now rewrite <- app_assoc.
Qed.

Lemma tab1_get_weather_appends : forall provider now py_str weather_logs city api_key n n' l',
  tab1_get_weather provider now py_str weather_logs city api_key n = (n', inr l') ->
  exists added, l' = weather_logs ++ added.
Proof.
  intros provider now py_str l city key n n' l' H. unfold tab1_get_weather in H.
  destruct (negb (String.eqb city "") && negb (String.eqb key "")).
  - destruct (String.eqb key "demo_mode").
    + inversion H. eexists. reflexivity.
    + unfold io_bind in H.
      destruct (get_weather_data provider now py_str city key n) as [n1 [ex|[[s w] m]]];
        [discriminate H|].
      destruct s, w as [w|]; inversion H; subst;
        solve [eexists; reflexivity | exists []; now rewrite app_nil_r].
  - inversion H. exists []. now rewrite app_nil_r.
Qed.

Lemma handle_appends_or_clears : forall provider now py_str ev l n n' l',
  handle provider now py_str ev l n = (n', inr l') ->
  l' = [] \/ exists added, l' = l ++ added.
Proof.
  intros provider now py_str ev l n n' l' H.
  destruct ev as [city key|draws|key favs| |]; unfold handle in H.
  - right. eapply tab1_get_weather_appends; eauto.
  - injection H as _ <-. right. exact (demo_batch_appends now demo_cities draws l).
  - right. destruct (negb (String.eqb key "demo_mode") && negb (String.eqb key "")).
    + eapply batch_fetch_appends; eauto.
    + inversion H. exists []. now rewrite app_nil_r.
  - inversion H. now left.
  - inversion H. right. exists []. now rewrite app_nil_r.
Qed.

(** C5 (Observation Log append-only): [add_weather_log] appends its
    entry at the end of the log and cannot fail; every action of a
    session either clears the log or only appends to it; after any
    sequence of appends on an empty log, the log is exactly the appended
    entries in call order, as many as there were calls. *)
Theorem observation_log_append_only :
  (forall weather_logs e, add_weather_log weather_logs e = weather_logs ++ [e]) /\
  (forall l l', session_step l l' -> l' = [] \/ exists added, l' = l ++ added) /\
  (forall es : list entry,
     fold_left add_weather_log es [] = es /\
     length (fold_left add_weather_log es []) = length es).
Proof.
  split; [reflexivity|]. split.
  - intros l l' (provider & now & py_str & ev & n & n' & H).
    eapply handle_appends_or_clears; eauto.
  - intros es. rewrite fold_add_weather_log. simpl. split; reflexivity.
Qed.

(** C8 (latest observation): the Latest Weather panel shows the
    last-appended entry, and nothing on an empty log. *)
Theorem latest_weather_last_appended :
  latest_weather [] = None /\
  forall weather_logs e, latest_weather (add_weather_log weather_logs e) = Some e.
Proof.
  split; [reflexivity|].
  intros l e. unfold latest_weather, add_weather_log.
  replace (length (l ++ [e]) - 1)%nat with (length l) by (rewrite length_app; simpl; lia).
  rewrite nth_error_app2 by lia. rewrite Nat.sub_diag.
  destruct l; reflexivity.
Qed.

(** C9 (empty log): clearing empties the log, and on the empty log every
    derived view has its neutral result: no latest entry, no quick stats,
    the "no data for analytics" state of Tab 2 (which holds the
    condition distribution, the city table and the alerts), and an
    empty export. *)
Theorem empty_log_views_neutral :
  forall provider now py_str fmt_other weather_logs n,
    handle provider now py_str ClearLogs weather_logs n = (n, inr []) /\
    latest_weather [] = None /\
    quick_stats [] = inr None /\
    analytics_tab [] = inr NoAnalyticsData /\
    save_weather_logs_csv fmt_other [] = "".
Proof.
  intros. repeat split.
Qed.

(** ** The forecast series *)

Lemma subseq_trans {A} : forall l1 l2 l3 : list A,
  subseq l1 l2 -> subseq l2 l3 -> subseq l1 l3.
Proof.
  intros l1 l2 l3 H12 H23. revert l1 H12.
  induction H23 as [|x l l' H IH|x l l' H IH]; intros l1 H12.
  - exact H12.
  - apply subseq_skip. auto.
  - inversion H12; subst.
    + apply subseq_skip. auto.
    + apply subseq_take. auto.
Qed.

Lemma subseq_firstn {A} : forall n (l : list A), subseq (firstn n l) l.
Proof.
  induction n as [|n IH]; intros l.
  - simpl. induction l; [apply subseq_nil | apply subseq_skip; auto].
  - destruct l; simpl; [apply subseq_nil | apply subseq_take; auto].
Qed.

Lemma subseq_filter {A} : forall (f : A -> bool) l, subseq (filter f l) l.
Proof.
  intros f. induction l as [|x l IH]; simpl; [constructor|].
  destruct (f x); [apply subseq_take | apply subseq_skip]; auto.
Qed.

Lemma in_firstn_in {A} : forall n (l : list A) x, In x (firstn n l) -> In x l.
Proof.
  intros n l x H. rewrite <- (firstn_skipn n l). apply in_or_app. now left.
Qed.

Lemma in_forecast_window_shift : forall now d,
  in_forecast_window now (now + d) = (Z.leb 0 d && Z.leb d forecast_window)%bool.
Proof.
  intros now d. unfold in_forecast_window.
  f_equal; apply eq_true_iff_eq; rewrite !Z.leb_le; lia.
Qed.

(** C2 (forecast window; spec-modelled): the series holds only points
    within 12 hours forward of the call time, at most 12 of them, in the
    provider's order; of buckets at +3h, +6h, +9h, +12h and +15h it keeps
    exactly the first four. *)
Theorem forecast_series_window : forall now buckets,
  (forall p, In p (forecast_series now buckets) ->
     (now <= fp_time p <= now + 12 * 3600)%Z) /\
  (length (forecast_series now buckets) <= 12)%nat /\
  subseq (forecast_series now buckets) buckets /\
  (forall t1 t2 t3 t4 t5,
     forecast_series now
       [mk_point (now + 3 * 3600) t1; mk_point (now + 6 * 3600) t2;
        mk_point (now + 9 * 3600) t3; mk_point (now + 12 * 3600) t4;
        mk_point (now + 15 * 3600) t5]
     = [mk_point (now + 3 * 3600) t1; mk_point (now + 6 * 3600) t2;
        mk_point (now + 9 * 3600) t3; mk_point (now + 12 * 3600) t4]).
Proof.
  intros now buckets. unfold forecast_series. split; [|split; [|split]].
  - intros p Hp. apply in_firstn_in in Hp. apply filter_In in Hp as [_ Hw].
    unfold in_forecast_window, forecast_window in Hw.
    apply andb_prop in Hw as [H1 H2]. apply Z.leb_le in H1, H2. lia.
  - rewrite length_firstn. lia.
  - eapply subseq_trans; [apply subseq_firstn|].
    eapply subseq_trans; [apply subseq_filter|]. apply subseq_firstn.
  - intros. cbn [firstn filter fp_time].
    rewrite !in_forecast_window_shift. reflexivity.
Qed.

(** ** The provider client *)

(** Case analysis on the successive [x <-! m ;; k] steps of a hypothesis
    [H : (... <-! ... ) = inr _]: each failing step is discarded. *)
Ltac exc_steps H :=
  repeat match type of H with
         | context [exc_bind ?m _] =>
             let E := fresh "E" in
             destruct m eqn:E; cbn [exc_bind] in H; try discriminate H
         end.

Lemma build_weather_entry_keys : forall now data e,
  build_weather_entry now data = inr e -> dict_keys e = weather_keys.
Proof.
  intros now data e H. unfold build_weather_entry in H. exc_steps H.
  unfold exc_ret in H. injection H as <-. reflexivity.
Qed.


(** The entry construction only raises built-in exceptions (KeyError,
    IndexError, TypeError, AttributeError), never a requests exception. *)
Definition builtin_only {A} (m : Exc A) : Prop :=
  forall ex, m = inl ex -> exists nm msg, ex = PyError nm msg.

Create HintDb builtin_exc.

Lemma builtin_only_ret {A} (a : A) : builtin_only (exc_ret a).
Proof. intros ex H. discriminate H. Qed.

Lemma builtin_only_bind {A B} (m : Exc A) (k : A -> Exc B) :
  builtin_only m -> (forall a, builtin_only (k a)) -> builtin_only (exc_bind m k).
Proof.
  intros Hm Hk ex H. destruct m as [e|a]; simpl in H.
  - injection H as <-. exact (Hm e eq_refl).
  - exact (Hk a ex H).
Qed.

Lemma builtin_only_getitem v k : builtin_only (getitem v k).
Proof.
  intros ex H. unfold getitem, key_error, type_error in H.
  destruct v; try (injection H as <-; eauto);
    match type of H with
    | context [dict_lookup ?d ?k] => destruct (dict_lookup d k)
    end; try discriminate H; injection H as <-; eauto.
Qed.

Lemma builtin_only_getitem0 v : builtin_only (getitem0 v).
Proof.
  intros ex H. unfold getitem0, type_error in H.
  destruct v as [| | | | |[|x l]| |]; try discriminate H; injection H as <-; eauto.
Qed.

Lemma builtin_only_dict_get v k d : builtin_only (dict_get v k d).
Proof.
  intros ex H. unfold dict_get in H.
  destruct v; try (injection H as <-; eauto);
    match type of H with
    | context [dict_lookup ?d ?k] => destruct (dict_lookup d k)
    end; discriminate H.
Qed.

Lemma builtin_only_truediv v n : builtin_only (py_truediv v n).
Proof.
  intros ex H. unfold py_truediv, type_error in H.
  destruct (num_of v); [discriminate H | injection H as <-; eauto].
Qed.

Lemma builtin_only_fromtimestamp v : builtin_only (fromtimestamp v).
Proof.
  intros ex H. unfold fromtimestamp, type_error in H.
  destruct v; simpl in H; try discriminate H; injection H as <-; eauto.
Qed.

#[local] Hint Resolve builtin_only_ret builtin_only_getitem builtin_only_getitem0
  builtin_only_dict_get builtin_only_truediv builtin_only_fromtimestamp : builtin_exc.

Lemma build_weather_entry_raises_builtin : forall now data ex,
  build_weather_entry now data = inl ex -> exists nm msg, ex = PyError nm msg.
Proof.
  intros now data. unfold build_weather_entry.
  repeat (apply builtin_only_bind; [auto with builtin_exc | intros ?]).
  auto with builtin_exc.
Qed.

Ltac tag_with t := exists t; eexists; split; [simpl; tauto | reflexivity].

Ltac solve_tagged :=
  first [ left; eexists; reflexivity
        | right; eexists; split; [reflexivity|];
          first [ tag_with "API Error: " | tag_with "Request timed out"
                | tag_with "Network error: " | tag_with "Error: " ] ].

(** C6 (fetch errors): whatever the provider does, [get_weather_data]
    sends exactly one request (no retry) and returns a result instead of
    raising: an entry on success, else an error message carrying one of
    the tags "API Error: ", "Request timed out", "Network error: ",
    "Error: "; a success-status body lacking expected fields gives an
    "Error: " result; and a failed fetch of the "Get Weather" button
    leaves the log exactly as it was. *)
Theorem fetch_errors_tagged_log_unchanged :
  forall provider now py_str city api_key n,
    (exists res,
       get_weather_data provider now py_str city api_key n = (S n, inr res) /\
       ((exists e, res = (true, Some e, None)) \/
        (exists msg, res = (false, None, Some msg) /\ tagged_error msg))) /\
    (forall data ex,
       provider n weather_url (query city api_key) = Responded (mk_response 200 (Some data)) ->
       build_weather_entry now data = inl ex ->
       get_weather_data provider now py_str city api_key n =
         (S n, inr (false, None, Some ("Error: " ++ exn_str ex)%string))) /\
    (forall weather_logs msg,
       city <> "" -> api_key <> "" -> api_key <> "demo_mode" ->
       get_weather_data provider now py_str city api_key n = (S n, inr (false, None, Some msg)) ->
       tab1_get_weather provider now py_str weather_logs city api_key n = (S n, inr weather_logs)).
Proof.
  intros provider now py_str city key n. split; [|split].
  - unfold get_weather_data, io_try, io_bind, requests_get, io_lift, io_ret.
    destruct (provider n weather_url (query city key)) as [[st b]|m|m].
    + cbn [status_code body response_json].
      destruct (Z.eqb st 200).
      * destruct b as [data|]; cbn [response_json body].
        -- destruct (build_weather_entry now data) as [[m|m|nm m]|e];
             eexists; (split; [reflexivity|]); solve_tagged.
        -- eexists; (split; [reflexivity|]); solve_tagged.
      * destruct b as [data|]; cbn [response_json body].
        -- destruct (dict_get data "message" (PStr "Unknown error")) as [[m|m|nm m]|v];
             eexists; (split; [reflexivity|]); solve_tagged.
        -- eexists; (split; [reflexivity|]); solve_tagged.
    + eexists; (split; [reflexivity|]); solve_tagged.
    + eexists; (split; [reflexivity|]); solve_tagged.
  - intros data ex Hp Hb.
    unfold get_weather_data, io_try, io_bind, requests_get, io_lift, io_ret.
    rewrite Hp. cbn [status_code body response_json Z.eqb].
    rewrite Hb. destruct (build_weather_entry_raises_builtin now data ex Hb) as (nm & m & ->).
    reflexivity.
  - intros l msg Hc Hk Hd Hg. unfold tab1_get_weather.
    apply String.eqb_neq in Hc, Hk, Hd. rewrite Hc, Hk, Hd. cbn [negb andb].
    unfold io_bind. rewrite Hg. reflexivity.
Qed.

(** C10 (optional fields, corrected): a normalized entry records the
    response's [wind.deg] as given, or 0 when it is absent; its
    visibility is always a float, the response's [visibility] divided by
    1000, or 0 when it is absent; a body lacking both fields still
    normalizes, with 0 for both. *)
Theorem weather_entry_optional_defaults :
  (forall now d w e,
     dict_lookup d "wind" = Some (PDict w) ->
     build_weather_entry now (PDict d) = inr e ->
     dict_lookup e "wind_direction" =
       Some (match dict_lookup w "deg" with Some x => x | None => PInt 0 end) /\
     (exists q, dict_lookup e "visibility" = Some (PFloat q) /\
        match dict_lookup d "visibility" with
        | None => q == 0
        | Some v => exists q0, num_of v = Some q0 /\ q == q0 / 1000
        end)) /\
  (forall now, exists e q,
     build_weather_entry now (owm_body (PInt 20) (PFloat (35 # 10)) [] []) = inr e /\
     dict_lookup e "wind_direction" = Some (PInt 0) /\
     dict_lookup e "visibility" = Some (PFloat q) /\ q == 0).
Proof.
  split.
  - intros now d w e Hw H. unfold build_weather_entry in H. exc_steps H.
    unfold exc_ret in H. injection H as <-.
    match goal with
    | Ed : dict_get ?x "deg" (PInt 0) = inr ?deg, Ex : getitem (PDict d) "wind" = inr ?x |- _ =>
        unfold getitem in Ex; rewrite Hw in Ex; injection Ex as <-;
        unfold dict_get in Ed; rename Ed into Hdeg
    end.
    match goal with
    | Ev : dict_get (PDict d) "visibility" (PInt 0) = inr ?v0,
      Et : py_truediv ?v0 1000 = inr ?vis |- _ =>
        unfold dict_get in Ev; unfold py_truediv in Et;
        rename Ev into Hvis0; rename Et into Hvis
    end.
    simpl dict_lookup. split.
    + destruct (dict_lookup w "deg"); injection Hdeg as <-; reflexivity.
    + destruct (dict_lookup d "visibility") as [v|];
        injection Hvis0 as <-; cbn [num_of] in Hvis |- *.
      * destruct (num_of v) as [q0|] eqn:Hv; [|discriminate Hvis].
        injection Hvis as <-. eexists. split; [reflexivity|].
        exists q0. split; reflexivity.
      * injection Hvis as <-. eexists. split; [reflexivity|]. reflexivity.
  - intros now. eexists. eexists. split; [reflexivity|].
    split; [reflexivity|]. split; [reflexivity|]. reflexivity.
Qed.

(** A success-status body whose [wind.deg] is a string normalizes, and
    the entry's wind direction is that string. *)
Lemma weather_entry_wind_direction_unchecked :
  exists e v,
    get_weather_data (owm_provider (owm_body (PInt 20) (PFloat (35 # 10))
                                            [("deg", PStr "NW")] []))
                     0%Z (fun _ => "") "London" "key" 0%nat = (1%nat, inr (true, Some e, None)) /\
    dict_lookup e "wind_direction" = Some v /\ num_of v = None.
Proof.
  eexists. eexists. split; [reflexivity|]. split; reflexivity.
Qed.

(** ** The DataFrame's columns *)

Lemma existsb_add_column_mono : forall k ks cols,
  existsb (String.eqb k) cols = true ->
  existsb (String.eqb k) (fold_left add_column ks cols) = true.
Proof.
  intros k. induction ks as [|k' ks IH]; intros cols H; simpl; [exact H|].
  apply IH. unfold add_column. destruct (existsb (String.eqb k') cols); [exact H|].
  rewrite existsb_app, H. reflexivity.
Qed.

Lemma existsb_add_column_in : forall k ks cols,
  In k ks -> existsb (String.eqb k) (fold_left add_column ks cols) = true.
Proof.
  intros k. induction ks as [|k' ks IH]; intros cols H; simpl in *; [contradiction|].
  destruct H as [->|H]; [|apply IH; exact H].
  apply existsb_add_column_mono. unfold add_column.
  destruct (existsb (String.eqb k) cols) eqn:E; [exact E|].
  rewrite existsb_app. simpl. rewrite String.eqb_refl. apply orb_true_r.
Qed.

Lemma existsb_df_columns_mono : forall k logs cols,
  existsb (String.eqb k) cols = true ->
  existsb (String.eqb k)
    (fold_left (fun cols e => fold_left add_column (dict_keys e) cols) logs cols) = true.
Proof.
  intros k. induction logs as [|e logs IH]; intros cols H; simpl; [exact H|].
  apply IH. apply existsb_add_column_mono. exact H.
Qed.

Lemma dict_lookup_in_keys : forall d k v, dict_lookup d k = Some v -> In k (dict_keys d).
Proof.
  induction d as [|[k' v'] d IH]; intros k v H; simpl in *; [discriminate H|].
  destruct (String.eqb k k') eqn:E.
  - left. symmetry. apply String.eqb_eq. exact E.
  - right. eapply IH. exact H.
Qed.

Lemma df_columns_has_key : forall logs row k v,
  In row logs -> dict_lookup row k = Some v ->
  existsb (String.eqb k) (df_columns logs) = true.
Proof.
  intros logs row k v Hin Hl. unfold df_columns.
  generalize (@nil string) as cols. revert Hin.
  induction logs as [|e logs IH]; intros Hin cols; simpl in *; [contradiction|].
  destruct Hin as [->|Hin].
  - apply existsb_df_columns_mono. apply existsb_add_column_in.
    eapply dict_lookup_in_keys. exact Hl.
  - apply IH. exact Hin.
Qed.

Lemma row_get_present : forall cols row k,
  existsb (String.eqb k) cols = true -> row_get cols row k = inr (df_cell row k).
Proof. intros cols row k H. unfold row_get. rewrite H. reflexivity. Qed.

(** ** Alerts *)

Lemma num_of_cell : forall row k v q,
  dict_lookup row k = Some v -> num_of v = Some q ->
  df_cell row k = v /\ cell_num row k = q.
Proof.
  intros row k v q Hl Hn. unfold cell_num, df_cell. rewrite Hl, Hn. split; reflexivity.
Qed.

Lemma row_alert_first_rule : forall cols row,
  numeric_row row ->
  (forall k, In k ["city"; "temperature"; "humidity"; "wind_speed"; "pressure"] ->
     existsb (String.eqb k) cols = true) ->
  row_alert cols row = inr (first_rule_alert row).
Proof.
  intros cols row [[c Hc] Hn] Hcols.
  destruct (Hn "temperature") as (vt & qt & Ht & Htq); [simpl; tauto|].
  destruct (Hn "humidity") as (vh & qh & Hh & Hhq); [simpl; tauto|].
  destruct (Hn "wind_speed") as (vw & qw & Hw & Hwq); [simpl; tauto|].
  destruct (num_of_cell _ _ _ _ Ht Htq) as [Dt Ct].
  destruct (num_of_cell _ _ _ _ Hh Hhq) as [Dh Ch].
  destruct (num_of_cell _ _ _ _ Hw Hwq) as [Dw Cw].
  unfold row_alert, first_rule_alert.
  rewrite !row_get_present by (apply Hcols; simpl; tauto).
  rewrite Dt, Dh, Dw, Ct, Ch, Cw. cbn [exc_bind]. unfold py_gt, py_lt.
  rewrite Htq. cbn [exc_bind].
  destruct (Qltb 35 qt); cbn [exc_bind]; [reflexivity|].
  destruct (Qltb qt (-10)); cbn [exc_bind]; [reflexivity|].
  rewrite Hwq. cbn [exc_bind].
  destruct (Qltb 15 qw); cbn [exc_bind]; [reflexivity|].
  rewrite Hhq. cbn [exc_bind].
  destruct (Qltb 90 qh); reflexivity.
Qed.

Lemma alert_rows_first_rule : forall cols rows,
  (forall row, In row rows -> numeric_row row) ->
  (forall k, In k ["city"; "temperature"; "humidity"; "wind_speed"; "pressure"] ->
     existsb (String.eqb k) cols = true) ->
  alert_rows cols rows =
    inr (flat_map (fun row => match first_rule_alert row with
                              | Some a => [a] | None => [] end) rows).
Proof.
  intros cols. induction rows as [|row rows IH]; intros Hrows Hcols; [reflexivity|].
  simpl. rewrite row_alert_first_rule; [|apply Hrows; simpl; tauto|exact Hcols].
  cbn [exc_bind]. rewrite IH; [|intros r Hr; apply Hrows; simpl; tauto|exact Hcols].
  cbn [exc_bind]. destruct (first_rule_alert row); reflexivity.
Qed.

Lemma numeric_row_columns : forall logs,
  (forall row, In row logs -> numeric_row row) -> logs <> [] ->
  forall k, In k ["city"; "temperature"; "humidity"; "wind_speed"; "pressure"] ->
    existsb (String.eqb k) (df_columns logs) = true.
Proof.
  intros logs Hrows Hne k Hk. destruct logs as [|row rest]; [congruence|].
  destruct (Hrows row (or_introl eq_refl)) as [[c Hc] Hn].
  destruct Hk as [<-|Hk].
  - eapply df_columns_has_key; [left; reflexivity|exact Hc].
  - destruct (Hn k Hk) as (v & q & Hl & _).
    eapply df_columns_has_key; [left; reflexivity|exact Hl].
Qed.

Lemma alert_scan_first_rule : forall weather_logs,
  (forall row, In row weather_logs -> numeric_row row) ->
  alert_scan weather_logs =
    inr (flat_map (fun row => match first_rule_alert row with
                              | Some a => [a] | None => [] end) weather_logs).
Proof.
  intros logs Hrows. destruct logs as [|row rest] eqn:El; [reflexivity|].
  rewrite <- El in *. unfold alert_scan. apply alert_rows_first_rule; [exact Hrows|].
  apply numeric_row_columns; [exact Hrows|]. rewrite El. discriminate.
Qed.

(** C1 (alert rules, corrected): on a log of readable rows, the scan
    gives each entry at most one alert, the first rule that matches in
    the order ExtremeHeat (temperature > 35), ExtremeCold (temperature
    < -10), StrongWind (wind_speed > 15), HighHumidity (humidity > 90),
    and lists them in log order; an entry with temperature 40 and wind
    speed 20 yields the ExtremeHeat alert alone. *)
Theorem alert_scan_first_matching_rule :
  (forall weather_logs,
     (forall row, In row weather_logs -> numeric_row row) ->
     alert_scan weather_logs =
       inr (flat_map (fun row => match first_rule_alert row with
                                 | Some a => [a] | None => [] end) weather_logs)) /\
  (forall row,
     numeric_row row ->
     dict_lookup row "temperature" = Some (PInt 40) ->
     dict_lookup row "wind_speed" = Some (PInt 20) ->
     alert_scan [row] = inr [ExtremeHeat (df_cell row "city") (PInt 40)]).
Proof.
  split; [exact alert_scan_first_rule|].
  intros row Hn Ht Hw. rewrite alert_scan_first_rule by (intros r [<-|[]]; exact Hn).
  simpl. unfold first_rule_alert, cell_num, df_cell. rewrite Ht. reflexivity.
Qed.

(** The alert scan of a fetched entry with temperature 40 and wind speed
    20 holds one alert, not two. *)
Lemma alert_scan_hot_and_windy_single :
  exists e,
    build_weather_entry 0%Z (owm_body (PInt 40) (PInt 20) [] []) = inr e /\
    alert_scan [e] = inr [ExtremeHeat (PStr "London") (PInt 40)].
Proof. eexists. split; reflexivity. Qed.

(** C7 (alert surfacing): when alerts were triggered, Tab 2 shows the
    last (at most) 5 of them in log order, all 5 when there were more; when
    none was triggered it shows the explicit "no weather alerts" state;
    that state lives inside the analytics of a non-empty log, distinct
    from the "no data for analytics" state of the empty log, where no
    alert is computed. *)
Theorem alerts_surface_last_five : forall weather_logs,
  (forall shown, alerts_panel weather_logs = inr (AlertsShown shown) ->
     exists older,
       alert_scan weather_logs = inr (older ++ shown) /\ shown <> [] /\
       (length shown <= 5)%nat /\ (older = [] \/ length shown = 5%nat)) /\
  (alerts_panel weather_logs = inr NoAlertsNow <-> alert_scan weather_logs = inr []) /\
  (forall a, analytics_tab weather_logs = inr (Analytics a) ->
     weather_logs <> [] /\ alerts_panel weather_logs = inr (alerts_view a)) /\
  (weather_logs = [] -> analytics_tab weather_logs = inr NoAnalyticsData).
Proof.
  intros logs. split; [|split; [|split]].
  - intros shown H. unfold alerts_panel in H.
    destruct (alert_scan logs) as [ex|alerts] eqn:Ea; [discriminate H|].
    cbn [exc_bind] in H. destruct alerts as [|x l]; [discriminate H|].
    injection H as <-. unfold py_last_n.
    exists (firstn (length (x :: l) - 5) (x :: l)).
    rewrite firstn_skipn. split; [reflexivity|].
    rewrite length_skipn. split; [|split].
    + intros Hn. apply (f_equal (@length alert)) in Hn.
      rewrite length_skipn in Hn.
      cbn [length] in Hn |- *. lia.
    + lia.
    + destruct (Nat.le_gt_cases (length (x :: l)) 5) as [Hle|Hgt].
      * left. replace (length (x :: l) - 5)%nat with 0%nat by lia. reflexivity.
      * right. lia.
  - unfold alerts_panel. destruct (alert_scan logs) as [ex|[|x l]]; cbn [exc_bind];
      split; intros H; try discriminate H; reflexivity.
  - intros a H. destruct logs as [|row rest]; [discriminate H|].
    split; [discriminate|]. unfold analytics_tab in H. exc_steps H.
    injection H as <-. reflexivity.
  - intros ->. reflexivity.
Qed.

(** ** Per-city statistics *)

Lemma round_half_even_compat : forall x y, x == y -> round_half_even x = round_half_even y.
Proof.
  intros x y Hxy. unfold round_half_even.
  rewrite (Qfloor_comp x y Hxy).
  set (f := Qfloor y).
  assert (Hr : x - inject_Z f == y - inject_Z f) by (rewrite Hxy; reflexivity).
  destruct (Qlt_le_dec (x - inject_Z f) (1#2)) as [H1|H1];
  destruct (Qlt_le_dec (y - inject_Z f) (1#2)) as [H2|H2]; try reflexivity.
  - exfalso. rewrite Hr in H1. apply (Qlt_not_le _ _ H1 H2).
  - exfalso. rewrite Hr in H1. apply (Qlt_not_le _ _ H2 H1).
  - assert (E : Qeq_bool (x - inject_Z f) (1#2) = Qeq_bool (y - inject_Z f) (1#2)).
    { destruct (Qeq_bool (y - inject_Z f) (1#2)) eqn:Ey.
      - apply Qeq_bool_iff in Ey. apply Qeq_bool_iff. rewrite Hr. exact Ey.
      - apply not_true_iff_false. intros Ex. apply Qeq_bool_iff in Ex.
        rewrite Hr in Ex. apply Qeq_bool_iff in Ex. congruence. }
    rewrite E. reflexivity.
Qed.

Lemma round2_compat : forall x y, x == y -> round2 x = round2 y.
Proof.
  intros x y Hxy. unfold round2.
  rewrite (round_half_even_compat (x * 100) (y * 100)) by (rewrite Hxy; reflexivity).
  reflexivity.
Qed.

Lemma expected_city_row_single : forall row,
  min_temp (expected_city_row [row]) = avg_temp (expected_city_row [row]) /\
  max_temp (expected_city_row [row]) = avg_temp (expected_city_row [row]).
Proof.
  intros row. unfold expected_city_row. cbn [min_temp max_temp avg_temp map q_min q_max fold_left].
  assert (E : round2 (cell_num row "temperature") =
              round2 (q_mean [cell_num row "temperature"])).
  { apply round2_compat. unfold q_mean, q_sum. simpl. field. }
  split; exact E.
Qed.

Lemma nums_of_cells : forall k rows,
  (forall row, In row rows -> exists v q, dict_lookup row k = Some v /\ num_of v = Some q) ->
  nums_of (map (fun r => df_cell r k) rows) = inr (map (fun r => cell_num r k) rows).
Proof.
  intros k. induction rows as [|row rows IH]; intros H; [reflexivity|].
  destruct (H row (or_introl eq_refl)) as (v & q & Hl & Hq).
  destruct (num_of_cell _ _ _ _ Hl Hq) as [D C].
  cbn [map nums_of]. rewrite D, Hq. cbn [exc_bind].
  rewrite IH by (intros r Hr; apply H; right; exact Hr).
  cbn [exc_bind]. rewrite C. reflexivity.
Qed.

Lemma group_stats_numeric : forall rows,
  (forall row, In row rows -> numeric_row row) ->
  group_stats rows = inr (expected_city_row rows).
Proof.
  intros rows H. unfold group_stats.
  rewrite !nums_of_cells by (intros r Hr; destruct (H r Hr) as [_ Hn]; apply Hn; simpl; tauto).
  reflexivity.
Qed.

Lemma stats_rows_numeric : forall logs keys,
  (forall row, In row logs -> numeric_row row) ->
  stats_rows logs keys = inr (map (fun k => (k, expected_city_row (group_rows logs k))) keys).
Proof.
  intros logs keys H. induction keys as [|k ks IH]; [reflexivity|].
  cbn [stats_rows]. rewrite group_stats_numeric.
  - cbn [exc_bind]. rewrite IH. reflexivity.
  - intros r Hr. unfold group_rows in Hr. apply filter_In in Hr. apply H, Hr.
Qed.

Lemma df_column_city_numeric : forall logs,
  (forall row, In row logs -> numeric_row row) -> logs <> [] ->
  df_column logs "city" = inr (map (fun row => df_cell row "city") logs).
Proof.
  intros logs H Hne. unfold df_column.
  rewrite (numeric_row_columns logs H Hne "city") by (simpl; tauto). reflexivity.
Qed.

Lemma require_columns_numeric : forall logs,
  (forall row, In row logs -> numeric_row row) -> logs <> [] ->
  require_columns (df_columns logs) ["temperature"; "humidity"; "wind_speed"; "pressure"] = inr tt.
Proof.
  intros logs H Hne. cbn [require_columns].
  rewrite !(numeric_row_columns logs H Hne) by (simpl; tauto). reflexivity.
Qed.

Lemma numeric_cities_str : forall logs,
  (forall row, In row logs -> numeric_row row) ->
  forall v, In v (map (fun row => df_cell row "city") logs) -> exists s, v = PStr s.
Proof.
  intros logs H v Hv. apply in_map_iff in Hv. destruct Hv as [row [<- Hin]].
  destruct (H row Hin) as [[c Hc] _]. exists c. unfold df_cell. rewrite Hc. reflexivity.
Qed.

Lemma filter_not_none_str : forall l,
  (forall v, In v l -> exists s, v = PStr s) ->
  filter (fun c => negb (is_none c)) l = l.
Proof.
  induction l as [|v l IH]; intros H; [reflexivity|].
  destruct (H v (or_introl eq_refl)) as [s ->]. cbn [filter is_none negb].
  rewrite IH by (intros w Hw; apply H; right; exact Hw). reflexivity.
Qed.

Lemma pyval_eqb_str : forall a w, pyval_eqb (PStr a) w = true -> w = PStr a.
Proof.
  intros a [] H; try discriminate H. simpl in H. apply String.eqb_eq in H. subst. reflexivity.
Qed.

Lemma py_unique_acc_in : forall vs seen,
  (forall v, In v vs -> exists s, v = PStr s) ->
  forall x, In x (py_unique_acc seen vs) <-> In x seen \/ In x vs.
Proof.
  induction vs as [|v vs IH]; intros seen Hs x; cbn [py_unique_acc].
  - rewrite <- in_rev. simpl. tauto.
  - destruct (Hs v (or_introl eq_refl)) as [s ->].
    destruct (existsb (pyval_eqb (PStr s)) seen) eqn:E.
    + rewrite IH by (intros w Hw; apply Hs; right; exact Hw).
      apply existsb_exists in E. destruct E as [w [Hw Ew]].
      apply pyval_eqb_str in Ew. subst w. simpl.
      split; [tauto|]. intros [Hx|[<-|Hx]]; tauto.
    + rewrite IH by (intros w Hw; apply Hs; right; exact Hw). simpl. tauto.
Qed.

Lemma py_unique_in : forall vs,
  (forall v, In v vs -> exists s, v = PStr s) ->
  forall x, In x (py_unique vs) <-> In x vs.
Proof.
  intros vs H x. unfold py_unique. rewrite py_unique_acc_in by exact H. simpl. tauto.
Qed.

Lemma py_insert_str : forall s l,
  (forall v, In v l -> exists t, v = PStr t) ->
  exists r, py_insert (PStr s) l = inr r /\ forall x, In x r <-> In x (PStr s :: l).
Proof.
  intros s. induction l as [|y l IH]; intros Hl.
  - exists [PStr s]. split; reflexivity.
  - destruct (Hl y (or_introl eq_refl)) as [t ->].
    cbn [py_insert py_lt_keys exc_bind].
    destruct (String.ltb s t).
    + eexists; split; reflexivity.
    + destruct IH as [r [Er Hr]]; [intros v Hv; apply Hl; right; exact Hv|].
      rewrite Er. cbn [exc_bind]. eexists; split; [reflexivity|].
      intros x. simpl. rewrite Hr. simpl. tauto.
Qed.

Lemma py_sort_str : forall l,
  (forall v, In v l -> exists t, v = PStr t) ->
  exists r, py_sort l = inr r /\ forall x, In x r <-> In x l.
Proof.
  induction l as [|v l IH]; intros Hl; [exists []; split; reflexivity|].
  destruct IH as [r [Er Hr]]; [intros w Hw; apply Hl; right; exact Hw|].
  destruct (Hl v (or_introl eq_refl)) as [s ->].
  destruct (py_insert_str s r) as [r' [E' Hr']].
  { intros w Hw. apply Hl. right. apply Hr. exact Hw. }
  exists r'. split; [cbn [py_sort]; rewrite Er; cbn [exc_bind]; exact E'|].
  intros x. rewrite Hr'. simpl. rewrite Hr. tauto.
Qed.

(** C4 (per-city statistics, corrected): on a non-empty log of readable
    rows, the city table exists only when the log holds more than one
    distinct city (otherwise no table is produced); when it exists it has
    one row for each distinct city and no other, holding the rounded mean,
    min and max temperature and mean humidity, wind speed and pressure of
    that city's entries; a city with a single entry gets min = max = mean;
    three London entries at 10, 20 and 30 degrees give a mean of 20.00. *)
Theorem city_stats_per_distinct_city :
  (forall weather_logs,
     (forall row, In row weather_logs -> numeric_row row) -> weather_logs <> [] ->
     let cities := map (fun row => df_cell row "city") weather_logs in
     ((length (py_unique cities) <= 1)%nat -> city_stats weather_logs = inr None) /\
     ((1 < length (py_unique cities))%nat ->
        exists table, city_stats weather_logs = inr (Some table) /\
          (forall c, In c cities <-> exists s, In (c, s) table) /\
          (forall c s, In (c, s) table -> s = expected_city_row (group_rows weather_logs c)) /\
          (forall c row s, In (c, s) table -> group_rows weather_logs c = [row] ->
             min_temp s = avg_temp s /\ max_temp s = avg_temp s))) /\
  (exists table s, city_stats sample_city_log = inr (Some table) /\
     In (PStr "London", s) table /\ avg_temp s == 20).
Proof.
  split.
  - intros logs H Hne cities.
    assert (Hstr := numeric_cities_str logs H).
    unfold city_stats. rewrite df_column_city_numeric by assumption. cbn [exc_bind].
    fold cities. split.
    + intros Hle. destruct (Nat.ltb_spec 1 (length (py_unique cities))); [lia|]. reflexivity.
    + intros Hlt. destruct (Nat.ltb_spec 1 (length (py_unique cities))); [|lia].
      rewrite require_columns_numeric by assumption. cbn [exc_bind].
      rewrite filter_not_none_str by exact Hstr.
      destruct (py_sort_str (py_unique cities)) as [keys [Ek Hk]].
      { intros v Hv. apply Hstr. apply (py_unique_in cities Hstr). exact Hv. }
      rewrite Ek. cbn [exc_bind]. rewrite stats_rows_numeric by exact H. cbn [exc_bind].
      eexists; split; [reflexivity|]. split; [|split].
      * intros c. rewrite <- (py_unique_in cities Hstr), <- Hk. split.
        -- intros Hc. eexists. apply in_map_iff. exists c. split; [reflexivity|exact Hc].
        -- intros [s Hs]. apply in_map_iff in Hs. destruct Hs as [k [Ek' Hk']].
           injection Ek' as <- _. exact Hk'.
      * intros c s Hs. apply in_map_iff in Hs. destruct Hs as [k [Ek' _]].
        injection Ek' as <- <-. reflexivity.
      * intros c row s Hs Hg. apply in_map_iff in Hs. destruct Hs as [k [Ek' _]].
        injection Ek' as <- <-. rewrite Hg. apply expected_city_row_single.
  - eexists; eexists; split; [vm_compute; reflexivity|].
    split; [left; reflexivity|]. vm_compute. reflexivity.
Qed.

(** A log holding one city only yields no city table. *)
Lemma city_stats_single_city_no_table :
  city_stats [demo_data 0%Z "London"] = inr None /\
  city_stats [demo_data 0%Z "London"; demo_data 0%Z "London"] = inr None.
Proof. split; vm_compute; reflexivity. Qed.

(** ** The columns of the log *)

Lemma get_weather_data_keys : forall provider now py_str city key n n1 s w m,
  get_weather_data provider now py_str city key n = (n1, inr (s, Some w, m)) ->
  dict_keys w = weather_keys.
Proof.
  intros provider now py_str city key n n1 s w m H.
  unfold get_weather_data, io_try, io_bind, requests_get, io_lift, io_ret in H.
  destruct (provider n weather_url (query city key)) as [[st b]|msg|msg];
    cbn [status_code body response_json] in H; [|discriminate H|discriminate H].
  destruct (Z.eqb st 200); destruct b as [data|]; cbn [response_json body] in H;
    try discriminate H.
  - destruct (build_weather_entry now data) as [ex|e] eqn:Eb.
    + destruct ex; discriminate H.
    + injection H as _ _ <- _. eapply build_weather_entry_keys. exact Eb.
  - destruct (dict_get data "message" (PStr "Unknown error")) as [ex|v];
      [destruct ex|]; discriminate H.
Qed.

Definition keyed (weather_logs : list entry) : Prop :=
  forall e, In e weather_logs -> dict_keys e = weather_keys.

Lemma keyed_add : forall l e, keyed l -> dict_keys e = weather_keys -> keyed (add_weather_log l e).
Proof.
  intros l e Hl He x Hx. unfold add_weather_log in Hx. apply in_app_or in Hx.
  destruct Hx as [Hx|[<-|[]]]; [apply Hl, Hx|exact He].
Qed.

Lemma demo_batch_keyed : forall now cities draws l,
  keyed l -> keyed (demo_batch now l cities draws).
Proof.
  intros now. induction cities as [|c cs IH]; intros draws l Hl.
  - destruct draws; exact Hl.
  - destruct draws as [|r rs]; [exact Hl|].
    cbn [demo_batch]. apply IH. apply keyed_add; [exact Hl|reflexivity].
Qed.

Lemma batch_fetch_keyed : forall provider now py_str key cities l n n' l',
  keyed l -> batch_fetch provider now py_str l cities key n = (n', inr l') -> keyed l'.
Proof.
  intros provider now py_str key. induction cities as [|c cs IH]; intros l n n' l' Hl H.
  - injection H as _ <-. exact Hl.
  - cbn [batch_fetch] in H. unfold io_bind in H.
    destruct (get_weather_data provider now py_str c key n) as [n1 [ex|[[s w] m]]] eqn:Eg;
      [discriminate H|].
    apply IH in H; [exact H|].
    destruct s, w as [w|]; try exact Hl.
    apply keyed_add; [exact Hl|]. eapply get_weather_data_keys. exact Eg.
Qed.

Lemma tab1_get_weather_keyed : forall provider now py_str l city key n n' l',
  keyed l -> tab1_get_weather provider now py_str l city key n = (n', inr l') -> keyed l'.
Proof.
  intros provider now py_str l city key n n' l' Hl H. unfold tab1_get_weather in H.
  destruct (negb (String.eqb city "") && negb (String.eqb key "")).
  - destruct (String.eqb key "demo_mode").
    + injection H as _ <-. apply keyed_add; [exact Hl|reflexivity].
    + unfold io_bind in H.
      destruct (get_weather_data provider now py_str city key n) as [n1 [ex|[[s w] m]]] eqn:Eg;
        [discriminate H|].
      destruct s, w as [w|]; injection H as _ <-; try exact Hl.
      apply keyed_add; [exact Hl|]. eapply get_weather_data_keys. exact Eg.
  - injection H as _ <-. exact Hl.
Qed.

Lemma handle_keyed : forall provider now py_str ev l n n' l',
  keyed l -> handle provider now py_str ev l n = (n', inr l') -> keyed l'.
Proof.
  intros provider now py_str ev l n n' l' Hl H.
  destruct ev as [city key|draws|key favs| |]; unfold handle in H.
  - eapply tab1_get_weather_keyed; eauto.
  - injection H as _ <-. exact (demo_batch_keyed now demo_cities draws l Hl).
  - destruct (negb (String.eqb key "demo_mode") && negb (String.eqb key "")).
    + eapply batch_fetch_keyed; eauto.
    + injection H as _ <-. exact Hl.
  - injection H as _ <-. intros e [].
  - injection H as _ <-. exact Hl.
Qed.

Lemma reachable_keyed : forall l, reachable l -> keyed l.
Proof.
  intros l H. induction H as [|l l' _ IH (provider & now & py_str & ev & n & n' & Hs)].
  - intros e [].
  - eapply handle_keyed; eauto.
Qed.

Lemma df_columns_keyed : forall l, keyed l -> l <> [] -> df_columns l = weather_keys.
Proof.
  intros [|e l] Hk Hne; [congruence|]. unfold df_columns. cbn [fold_left].
  rewrite (Hk e (or_introl eq_refl)).
  assert (Hl : forall e', In e' l -> dict_keys e' = weather_keys)
    by (intros e' He'; apply Hk; right; exact He').
  clear Hk Hne. change (fold_left add_column weather_keys []) with weather_keys.
  induction l as [|e' l IH]; [reflexivity|]. cbn [fold_left].
  rewrite (Hl e' (or_introl eq_refl)).
  change (fold_left add_column weather_keys weather_keys) with weather_keys.
  apply IH. intros x Hx. apply Hl. right. exact Hx.
Qed.

(** ** Reading an export back *)

Definition field_end (st : csv_state) (fld : list ascii) : Prop :=
  match st with FieldStart => fld = [] | Unquoted | QuoteEnd => True | Quoted => False end.

Lemma scan_comma : forall st fld row rest, field_end st fld ->
  csv_scan st fld row (comma_char :: rest) = csv_scan FieldStart [] (rev fld :: row) rest.
Proof. intros [] fld row rest H; cbn [field_end] in H; try contradiction; try subst fld; reflexivity. Qed.

Lemma scan_nl : forall st fld row rest, field_end st fld ->
  csv_scan st fld row (nl_char :: rest) = rev (rev fld :: row) :: csv_scan FieldStart [] [] rest.
Proof. intros [] fld row rest H; cbn [field_end] in H; try contradiction; try subst fld; reflexivity. Qed.

Lemma plain_char : forall a, special_char a = false ->
  Ascii.eqb a comma_char = false /\ Ascii.eqb a quote_char = false /\
  Ascii.eqb a nl_char = false.
Proof.
  intros a H. unfold special_char in H. apply orb_false_iff in H as [H _].
  apply orb_false_iff in H as [H Hn]. apply orb_false_iff in H as [Hc Hq]. tauto.
Qed.

Lemma scan_unquoted : forall g fld row s, needs_quote g = false ->
  csv_scan Unquoted fld row (g ++ s) = csv_scan Unquoted (rev g ++ fld) row s.
Proof.
  induction g as [|a g IH]; intros fld row s H; [reflexivity|].
  cbn [needs_quote existsb] in H. apply orb_false_iff in H as [Ha Hg].
  destruct (plain_char a Ha) as (Hc & Hq & Hn).
  cbn [app csv_scan]. rewrite Hc, Hn. rewrite IH by exact Hg.
  cbn [rev]. rewrite <- app_assoc. reflexivity.
Qed.

Lemma scan_quoted : forall f acc row s,
  csv_scan Quoted acc row (double_quotes f ++ quote_char :: s) =
  csv_scan QuoteEnd (rev f ++ acc) row s.
Proof.
  induction f as [|a f IH]; intros acc row s; [reflexivity|].
  cbn [double_quotes]. destruct (Ascii.eqb a quote_char) eqn:Ea.
  - apply Ascii.eqb_eq in Ea. subst a. cbn [app].
    change (csv_scan Quoted acc row (quote_char :: quote_char :: double_quotes f ++ quote_char :: s))
      with (csv_scan Quoted (quote_char :: acc) row (double_quotes f ++ quote_char :: s)).
    rewrite IH. cbn [rev]. rewrite <- app_assoc. reflexivity.
  - cbn [app csv_scan]. rewrite Ea. rewrite IH. cbn [rev]. rewrite <- app_assoc. reflexivity.
Qed.

Lemma scan_field : forall f row s, exists st,
  field_end st (rev f) /\
  csv_scan FieldStart [] row (csv_field f ++ s) = csv_scan st (rev f) row s.
Proof.
  intros f row s. unfold csv_field. destruct (needs_quote f) eqn:Nq.
  - exists QuoteEnd. split; [exact I|]. cbn [app]. rewrite <- app_assoc. cbn [app].
    change (csv_scan FieldStart [] row (quote_char :: double_quotes f ++ quote_char :: s))
      with (csv_scan Quoted [] row (double_quotes f ++ quote_char :: s)).
    rewrite scan_quoted. rewrite app_nil_r. reflexivity.
  - destruct f as [|a f]; [exists FieldStart; split; reflexivity|].
    exists Unquoted. split; [exact I|].
    cbn [needs_quote existsb] in Nq. apply orb_false_iff in Nq as [Ha Hf].
    destruct (plain_char a Ha) as (Hc & Hq & Hn).
    cbn [app csv_scan]. rewrite Hq, Hc, Hn. rewrite scan_unquoted by exact Hf. reflexivity.
Qed.

Lemma join_fields_cons2 : forall f g fs,
  join_fields (f :: g :: fs) = csv_field f ++ comma_char :: join_fields (g :: fs).
Proof. reflexivity. Qed.

Lemma scan_join_fields : forall fs row rest, fs <> [] ->
  csv_scan FieldStart [] row (join_fields fs ++ nl_char :: rest) =
  rev (rev fs ++ row) :: csv_scan FieldStart [] [] rest.
Proof.
  induction fs as [|f fs IH]; intros row rest Hne; [congruence|].
  destruct fs as [|g fs'].
  - cbn [join_fields]. destruct (scan_field f row (nl_char :: rest)) as [st [Hst E]].
    rewrite E, scan_nl by exact Hst. rewrite rev_involutive. reflexivity.
  - rewrite join_fields_cons2, <- app_assoc. cbn [app].
    destruct (scan_field f row (comma_char :: join_fields (g :: fs') ++ nl_char :: rest))
      as [st [Hst E]].
    rewrite E, scan_comma by exact Hst. rewrite rev_involutive.
    rewrite IH by discriminate.
    replace (rev (f :: g :: fs') ++ row) with (rev (g :: fs') ++ f :: row)
      by (cbn [rev]; rewrite <- !app_assoc; reflexivity).
    reflexivity.
Qed.

Lemma scan_line : forall fs rest, fs <> [] ->
  csv_scan FieldStart [] [] (csv_line fs ++ rest) = fs :: csv_scan FieldStart [] [] rest.
Proof.
  intros fs rest Hne.
  destruct fs as [|[|a f] [|g fs]]; [congruence|reflexivity|..];
    cbn [csv_line]; rewrite <- app_assoc; cbn [app];
    rewrite scan_join_fields by discriminate; rewrite app_nil_r, rev_involutive; reflexivity.
Qed.

Lemma scan_lines : forall rows, (forall r, In r rows -> r <> []) ->
  csv_scan FieldStart [] [] (concat (map csv_line rows)) = rows.
Proof.
  induction rows as [|r rows IH]; intros H; [reflexivity|].
  cbn [map concat]. rewrite scan_line by (apply H; left; reflexivity).
  rewrite IH by (intros r' Hr'; apply H; right; exact Hr'). reflexivity.
Qed.

Lemma csv_read_save : forall fmt_other l, l <> [] -> df_columns l <> [] ->
  csv_read (save_weather_logs_csv fmt_other l) = csv_rows fmt_other l.
Proof.
  intros fmt_other l Hne Hc. destruct l as [|e l']; [congruence|].
  unfold save_weather_logs_csv, csv_read. rewrite list_ascii_of_string_of_list_ascii.
  rewrite <- (map_map (map list_ascii_of_string) csv_line).
  rewrite scan_lines.
  - rewrite map_map. rewrite <- (map_id (csv_rows fmt_other (e :: l'))) at 2.
    apply map_ext. intros r. rewrite map_map. rewrite <- (map_id r) at 2.
    apply map_ext. apply string_of_list_ascii_of_string.
  - intros r Hr. apply in_map_iff in Hr. destruct Hr as [r0 [<- Hr0]].
    unfold csv_rows in Hr0. destruct Hr0 as [<-|Hr0].
    + intros Hm. apply Hc. destruct (df_columns (e :: l')); [reflexivity|discriminate Hm].
    + apply in_map_iff in Hr0. destruct Hr0 as [row [<- _]].
      intros Hm. apply Hc. destruct (df_columns (e :: l')); [reflexivity|discriminate Hm].
Qed.

(** ** Numbers in the export, read back *)

Section NumberText.
Local Open Scope Z_scope.

Lemma digit_char_is_digit : forall d, (0 <= d < 10)%Z -> is_digit (digit_char d) = true.
Proof.
  intros d Hd. unfold is_digit, digit_char.
  rewrite nat_ascii_embedding by lia. apply andb_true_intro; split; apply Nat.leb_le; lia.
Qed.

Lemma digit_val_char : forall d, (0 <= d < 10)%Z -> digit_val (digit_char d) = d.
Proof.
  intros d Hd. unfold digit_val, digit_char. rewrite nat_ascii_embedding by lia. lia.
Qed.

Lemma fixed_digits_length : forall k x, length (fixed_digits k x) = k.
Proof.
  induction k as [|k IH]; intros x; [reflexivity|]. cbn [fixed_digits].
  rewrite length_app, IH. cbn. lia.
Qed.

Lemma fixed_digits_digits : forall k x, forallb is_digit (fixed_digits k x) = true.
Proof.
  induction k as [|k IH]; intros x; [reflexivity|]. cbn [fixed_digits].
  rewrite forallb_app, IH. cbn [forallb]. rewrite digit_char_is_digit by (apply Z.mod_pos_bound; lia).
  reflexivity.
Qed.

Lemma digits_value_acc : forall ds acc,
  fold_left (fun acc c => acc * 10 + digit_val c)%Z ds acc =
  (acc * 10 ^ Z.of_nat (length ds) + digits_value ds)%Z.
Proof.
  unfold digits_value. induction ds as [|c ds IH]; intros acc; cbn [fold_left length].
  - cbn. lia.
  - rewrite IH, (IH (0 * 10 + digit_val c)%Z). rewrite Nat2Z.inj_succ, Z.pow_succ_r by lia. lia.
Qed.

Lemma digits_value_app : forall a b,
  digits_value (a ++ b) = (digits_value a * 10 ^ Z.of_nat (length b) + digits_value b)%Z.
Proof.
  intros a b. unfold digits_value at 1. rewrite fold_left_app. apply digits_value_acc.
Qed.

Lemma fixed_digits_value : forall k x, digits_value (fixed_digits k x) = (x mod 10 ^ Z.of_nat k)%Z.
Proof.
  induction k as [|k IH]; intros x.
  - cbn. rewrite Z.mod_1_r. reflexivity.
  - cbn [fixed_digits]. rewrite digits_value_app, IH. cbn [length].
    unfold digits_value at 1. cbn [fold_left]. rewrite digit_val_char by (apply Z.mod_pos_bound; lia).
    replace (10 ^ Z.of_nat (S k))%Z with (10 * 10 ^ Z.of_nat k)%Z
      by (rewrite Nat2Z.inj_succ, Z.pow_succ_r; lia).
    rewrite Z.rem_mul_r by (try apply Z.pow_pos_nonneg; lia). cbn [Z.of_nat]. lia.
Qed.

Lemma ndigits_aux_bound : forall f x,
  (0 <= x < 2 ^ Z.of_nat f)%Z -> (x < 10 ^ Z.of_nat (ndigits_aux f x))%Z /\ (1 <= ndigits_aux f x)%nat.
Proof.
  induction f as [|f IH]; intros x Hx; cbn [ndigits_aux].
  - cbn in Hx. split; [cbn; lia|lia].
  - destruct (Z.ltb_spec x 10); [split; [cbn; lia|lia]|].
    rewrite Nat2Z.inj_succ, Z.pow_succ_r in Hx by lia.
    assert (0 < 2 ^ Z.of_nat f)%Z by (apply Z.pow_pos_nonneg; lia).
    assert (Hd : (0 <= x / 10 < 2 ^ Z.of_nat f)%Z).
    { split; [apply Z.div_pos; lia|]. apply Z.div_lt_upper_bound; lia. }
    destruct (IH _ Hd) as [H1 H2]. split; [|lia].
    rewrite Nat2Z.inj_succ, Z.pow_succ_r by lia.
    pose proof (Z.div_mod x 10 ltac:(lia)). pose proof (Z.mod_pos_bound x 10 ltac:(lia)). lia.
Qed.

Lemma ndigits_bound : forall x, (0 <= x)%Z ->
  (x < 10 ^ Z.of_nat (ndigits x))%Z /\ (1 <= ndigits x)%nat.
Proof.
  intros x Hx. unfold ndigits. apply ndigits_aux_bound. split; [exact Hx|].
  destruct (Z.eq_dec x 0) as [->|Hne]; [cbn; lia|].
  rewrite Nat2Z.inj_succ, Z2Nat.id by (apply Z.log2_nonneg).
  apply Z.log2_spec. lia.
Qed.

Lemma dec_digits_value : forall x, (0 <= x)%Z -> digits_value (dec_digits x) = x.
Proof.
  intros x Hx. unfold dec_digits. rewrite fixed_digits_value.
  apply Z.mod_small. pose proof (ndigits_bound x Hx). lia.
Qed.

Lemma span_digits_app : forall ds r,
  forallb is_digit ds = true ->
  (match r with [] => True | c :: _ => is_digit c = false end) ->
  span_digits (ds ++ r) = (ds, r).
Proof.
  induction ds as [|d ds IH]; intros r Hd Hr; cbn [app span_digits].
  - destruct r as [|c r]; [reflexivity|]. cbn [span_digits]. rewrite Hr. reflexivity.
  - cbn [forallb] in Hd. apply andb_prop in Hd. destruct Hd as [Hd Hds].
    rewrite Hd, IH by assumption. reflexivity.
Qed.

Lemma digit_not_minus : forall c, is_digit c = true -> Ascii.eqb c "-"%char = false.
Proof.
  intros c H. destruct (Ascii.eqb_spec c "-"%char) as [->|]; [discriminate H|reflexivity].
Qed.

Lemma sign_split_digits : forall ds r,
  ds <> [] -> forallb is_digit ds = true -> sign_split (ds ++ r) = (false, ds ++ r).
Proof.
  intros [|d ds] r Hne H; [congruence|]. cbn [forallb] in H. apply andb_prop in H.
  cbn [app sign_split]. rewrite digit_not_minus by apply H. reflexivity.
Qed.

Lemma sign_split_minus : forall r, sign_split ("-"%char :: r) = (true, r).
Proof. reflexivity. Qed.

Lemma dec_digits_ne : forall x, (0 <= x)%Z -> dec_digits x <> [].
Proof.
  intros x Hx H. pose proof (fixed_digits_length (ndigits x) x) as E. unfold dec_digits in H.
  rewrite H in E. cbn [length] in E. pose proof (ndigits_bound x Hx). lia.
Qed.

Lemma Qpow10_inject : forall n : nat,
  (Qpower (inject_Z 10) (Z.of_nat n) == inject_Z (10 ^ Z.of_nat n))%Q.
Proof. intros n. symmetry. apply Zpower_Qpower. lia. Qed.

Lemma sign_value : forall (neg : bool) x,
  (0 <= x)%Z ->
  ((if neg then -1 else 1) * inject_Z x == inject_Z (if neg then - x else x)%Z)%Q.
Proof.
  intros [|] x Hx; rewrite ?inject_Z_opp; field.
Qed.

Lemma int_text_parse : forall z, exists q, parse_num (int_text z) = Some q /\ (q == inject_Z z)%Q.
Proof.
  intros z. unfold parse_num, int_text. rewrite list_ascii_of_string_of_list_ascii.
  assert (Ha : (0 <= Z.abs z)%Z) by lia.
  assert (Hsign : sign_split (sign_text (Z.ltb z 0) ++ dec_digits (Z.abs z))
                  = (Z.ltb z 0, dec_digits (Z.abs z))).
  { destruct (Z.ltb z 0); [reflexivity|]. cbn [sign_text].
    cbn [app]. rewrite <- (app_nil_r (dec_digits (Z.abs z))).
    rewrite sign_split_digits; [reflexivity|apply dec_digits_ne, Ha|apply fixed_digits_digits]. }
  rewrite Hsign.
  rewrite <- (app_nil_r (dec_digits (Z.abs z))).
  rewrite span_digits_app by first [apply fixed_digits_digits|exact I].
  cbn [frac_split parse_exp]. rewrite !app_nil_r.
  destruct (dec_digits (Z.abs z)) eqn:Ed; [exfalso; exact (dec_digits_ne _ Ha Ed)|].
  rewrite <- Ed. eexists. split; [reflexivity|].
  rewrite dec_digits_value by exact Ha. cbn [length Z.of_nat]. rewrite Z.sub_0_r.
  rewrite Qpower_0_r, Qmult_1_r, sign_value by exact Ha.
  apply inject_Z_injective. destruct (Z.ltb_spec z 0); lia.
Qed.

Lemma parse_num_spec : forall cs neg r0 ip r1 fp r2 e,
  sign_split cs = (neg, r0) -> span_digits r0 = (ip, r1) -> frac_split r1 = (fp, r2) ->
  parse_exp r2 = Some (e, []) -> ip ++ fp <> [] ->
  parse_num (string_of_list_ascii cs) =
    Some ((if neg then -1 else 1) * inject_Z (digits_value (ip ++ fp))
          * Qpower (inject_Z 10) (e - Z.of_nat (length fp))%Z)%Q.
Proof.
  intros cs neg r0 ip r1 fp r2 e H0 H1 H2 H3 Hne. unfold parse_num.
  rewrite list_ascii_of_string_of_list_ascii, H0, H1, H2, H3.
  destruct (ip ++ fp); [congruence|reflexivity].
Qed.

Lemma sign_split_prefix : forall (neg : bool) ds r,
  ds <> [] -> forallb is_digit ds = true ->
  sign_split (sign_text neg ++ ds ++ r) = (neg, ds ++ r).
Proof.
  intros [|] ds r Hne Hd; [reflexivity|]. cbn [sign_text app]. apply sign_split_digits; assumption.
Qed.

Lemma strip_by_spec : forall b f x, (1 < b)%Z ->
  let (c, r) := strip_by b f x in x = (b ^ Z.of_nat c * r)%Z.
Proof.
  intros b f. induction f as [|f IH]; intros x Hb; cbn [strip_by].
  - cbn [Z.of_nat]. rewrite Z.pow_0_r. lia.
  - destruct (Z.eqb_spec (x mod b) 0) as [Hm|Hm]; [|cbn [Z.of_nat]; rewrite Z.pow_0_r; lia].
    specialize (IH (x / b) Hb). destruct (strip_by b f (x / b)) as [c r].
    rewrite Nat2Z.inj_succ, Z.pow_succ_r by lia.
    rewrite (Z.div_mod x b) by lia. rewrite Hm, IH. lia.
Qed.

Lemma strip_by_rest : forall b f x, (1 < b)%Z -> (0 < x < b ^ Z.of_nat f)%Z ->
  ((snd (strip_by b f x)) mod b <> 0)%Z.
Proof.
  intros b f. induction f as [|f IH]; intros x Hb Hx; cbn [strip_by].
  - cbn [Z.of_nat] in Hx. rewrite Z.pow_0_r in Hx. lia.
  - destruct (Z.eqb_spec (x mod b) 0) as [Hm|Hm]; [|exact Hm].
    rewrite Nat2Z.inj_succ, Z.pow_succ_r in Hx by lia.
    pose proof (Z.div_mod x b ltac:(lia)) as Hdm. rewrite Hm, Z.add_0_r in Hdm.
    assert (0 < b ^ Z.of_nat f)%Z by (apply Z.pow_pos_nonneg; lia).
    assert (Hq : (0 < x / b < b ^ Z.of_nat f)%Z) by nia.
    specialize (IH (x / b) Hb Hq). destruct (strip_by b f (x / b)). exact IH.
Qed.

Lemma strip2_spec : forall p,
  let (a, r) := strip2 p in Zpos p = (2 ^ Z.of_nat a * Zpos r)%Z /\ (Zpos r mod 2 = 1)%Z.
Proof.
  induction p as [p IH|p IH|]; cbn [strip2].
  - split; [cbn; lia|]. rewrite Pos2Z.inj_xI, Z.add_comm, Z.mul_comm, Z.mod_add by lia. reflexivity.
  - destruct (strip2 p) as [a r]. destruct IH as [IH1 IH2]. split; [|exact IH2].
    rewrite Pos2Z.inj_xO, IH1, Nat2Z.inj_succ, Z.pow_succ_r by lia. lia.
  - split; reflexivity.
Qed.

Lemma decimal_of_value : forall q m k, decimal_of q = Some (m, k) ->
  (inject_Z m == q * inject_Z (10 ^ Z.of_nat k))%Q.
Proof.
  intros q m k H. pose proof (Qred_correct q) as Hq. unfold decimal_of in H.
  destruct (Qred q) as [n d]. cbn [Qnum Qden] in H.
  pose proof (strip2_spec d) as S2. destruct (strip2 d) as [a r1]. destruct S2 as [Hd _].
  pose proof (strip_by_spec 5 (Pos.to_nat (Pos.size r1)) (Zpos r1) ltac:(lia)) as S5.
  destruct (strip_by 5 (Pos.to_nat (Pos.size r1)) (Zpos r1)) as [b r2].
  destruct (Z.eqb_spec r2 1) as [E1|]; [subst r2|discriminate]. injection H as <- <-.
  rewrite <- Hq. unfold Qeq. cbn [Qnum Qden Qmult inject_Z]. rewrite Pos.mul_1_r, Z.mul_1_r.
  rewrite Hd, S5, Z.mul_1_r.
  set (K := Nat.max a b).
  assert (E2 : (2 ^ Z.of_nat (K - a) * 2 ^ Z.of_nat a = 2 ^ Z.of_nat K)%Z)
    by (rewrite <- Z.pow_add_r by lia; f_equal; lia).
  assert (E5 : (5 ^ Z.of_nat (K - b) * 5 ^ Z.of_nat b = 5 ^ Z.of_nat K)%Z)
    by (rewrite <- Z.pow_add_r by lia; f_equal; lia).
  assert (E10 : (10 ^ Z.of_nat K = 2 ^ Z.of_nat K * 5 ^ Z.of_nat K)%Z)
    by (rewrite <- Z.pow_mul_l; reflexivity).
  rewrite E10, <- E2, <- E5. ring.
Qed.

Lemma coprime_10 : forall r, (r mod 2 = 1)%Z -> (r mod 5 <> 0)%Z -> Z.gcd r 10 = 1%Z.
Proof.
  intros r H2 H5.
  set (g := Z.gcd r 10).
  assert (Hgr : (g | r)) by apply Z.gcd_divide_l.
  assert (Hg10 : (g | 10)) by apply Z.gcd_divide_r.
  assert (Hg0 : (0 <= g)%Z) by apply Z.gcd_nonneg.
  assert (Hgle : (g <= 10)%Z) by (apply Z.divide_pos_le; [lia|exact Hg10]).
  assert (Hgnz : g <> 0%Z) by (intros E; apply Z.gcd_eq_0 in E; lia).
  assert (Hdiv : forall p, (p | g) -> (p | r)) by (intros p Hp; eapply Z.divide_trans; eassumption).
  assert (N2 : ~ (2 | r)) by (intros Hd; apply Z.mod_divide in Hd; lia).
  assert (N5 : ~ (5 | r)) by (intros Hd; apply Z.mod_divide in Hd; lia).
  apply Z.mod_divide in Hg10; [|exact Hgnz].
  assert (g = 1 \/ g = 2 \/ g = 3 \/ g = 4 \/ g = 5 \/ g = 6 \/ g = 7 \/ g = 8 \/ g = 9 \/ g = 10)%Z
    as Hc by lia.
  clearbody g.
  destruct Hc as [E|[E|[E|[E|[E|[E|[E|[E|[E|E]]]]]]]]]; subst g;
    try reflexivity; try discriminate Hg10;
    exfalso; first [ apply N2, Hdiv; apply Z.mod_divide; [lia|reflexivity]
                   | apply N5, Hdiv; apply Z.mod_divide; [lia|reflexivity] ].
Qed.

Lemma coprime_10_pow : forall r j, Z.gcd r 10 = 1%Z -> (r | 10 ^ Z.of_nat j) -> (r | 1).
Proof.
  intros r j Hg. induction j as [|j IH]; intros H; [exact H|].
  apply IH. rewrite Nat2Z.inj_succ, Z.pow_succ_r in H by lia.
  apply Z.gauss with 10%Z; assumption.
Qed.

Lemma decimal_of_finite : forall q, finite_decimal q -> exists m k, decimal_of q = Some (m, k).
Proof.
  intros q [M [j Hj]]. pose proof (Qred_correct q) as Hq. pose proof (gcd_Qred q) as Hg.
  unfold decimal_of. destruct (Qred q) as [n d]. cbn [Qnum Qden] in *.
  pose proof (strip2_spec d) as S2. destruct (strip2 d) as [a r1]. destruct S2 as [Hd Hodd].
  assert (Hfuel : (0 < Zpos r1 < 5 ^ Z.of_nat (Pos.to_nat (Pos.size r1)))%Z).
  { split; [lia|]. rewrite positive_nat_Z. pose proof (Pos.size_gt r1) as Hs.
    assert (Hs' : (Zpos r1 < Zpos (2 ^ Pos.size r1))%Z) by exact Hs.
    rewrite Pos2Z.inj_pow in Hs'. clear Hs. rename Hs' into Hs.
    eapply Z.lt_le_trans; [exact Hs|]. apply Z.pow_le_mono_l; lia. }
  pose proof (strip_by_spec 5 (Pos.to_nat (Pos.size r1)) (Zpos r1) ltac:(lia)) as S5.
  pose proof (strip_by_rest 5 (Pos.to_nat (Pos.size r1)) (Zpos r1) ltac:(lia) Hfuel) as R5.
  destruct (strip_by 5 (Pos.to_nat (Pos.size r1)) (Zpos r1)) as [b r2]. cbn [snd] in R5.
  assert (Hr2odd : (r2 mod 2 = 1)%Z).
  { destruct (Z.mod_pos_bound r2 2 ltac:(lia)) as [L U].
    destruct (Z.eq_dec (r2 mod 2) 0) as [E|E]; [|lia].
    rewrite S5, Z.mul_mod, E, Z.mul_0_r in Hodd by lia. discriminate Hodd. }
  (* d divides n * 10^j, and n is coprime to d, so d divides 10^j *)
  rewrite <- Hq in Hj. unfold Qeq in Hj. cbn [Qnum Qden Qmult inject_Z] in Hj.
  rewrite Pos.mul_1_r, Z.mul_1_r in Hj.
  assert (Hd10 : (Zpos d | 10 ^ Z.of_nat j)).
  { apply Z.gauss with n.
    - exists M. rewrite <- Hj. ring.
    - rewrite Z.gcd_comm. exact Hg. }
  assert (Hr2 : (r2 | 10 ^ Z.of_nat j)).
  { eapply Z.divide_trans; [|exact Hd10]. rewrite Hd, S5.
    exists (2 ^ Z.of_nat a * 5 ^ Z.of_nat b)%Z. ring. }
  apply coprime_10_pow in Hr2; [|apply coprime_10; assumption].
  assert (Hpos : (0 < r2)%Z).
  { assert (0 < 5 ^ Z.of_nat b)%Z by (apply Z.pow_pos_nonneg; lia). nia. }
  apply Z.divide_1_r_nonneg in Hr2; [|lia]. rewrite Hr2. cbn. eauto.
Qed.

Lemma sign_split_prefix1 : forall (neg : bool) c r, is_digit c = true ->
  sign_split (sign_text neg ++ c :: r) = (neg, c :: r).
Proof.
  intros [|] c r Hc; [reflexivity|]. cbn [sign_text app sign_split]. rewrite digit_not_minus by exact Hc.
  reflexivity.
Qed.

Lemma span_digits_one : forall c r, is_digit c = true ->
  (match r with [] => True | c' :: _ => is_digit c' = false end) ->
  span_digits (c :: r) = ([c], r).
Proof. intros c r Hc Hr. apply (span_digits_app [c] r); [cbn; rewrite Hc; reflexivity|exact Hr]. Qed.

Lemma pow10_nz : forall k : nat, ~ (inject_Z (10 ^ Z.of_nat k) == 0)%Q.
Proof.
  intros k H. unfold Qeq in H. cbn in H.
  pose proof (Z.pow_pos_nonneg 10 (Z.of_nat k)). lia.
Qed.

Lemma parse_exp_text : forall e,
  parse_exp ("e"%char :: exp_text e) = Some (e, []).
Proof.
  intros e. unfold exp_text.
  set (N := Nat.max 2 (ndigits (Z.abs e))).
  assert (HN : (1 <= N)%nat) by lia.
  assert (Hv : digits_value (fixed_digits N (Z.abs e)) = Z.abs e).
  { rewrite fixed_digits_value. apply Z.mod_small. split; [lia|].
    destruct (ndigits_bound (Z.abs e) ltac:(lia)) as [B _].
    eapply Z.lt_le_trans; [exact B|]. apply Z.pow_le_mono_r; lia. }
  assert (Hs : span_digits (fixed_digits N (Z.abs e)) = (fixed_digits N (Z.abs e), [])).
  { rewrite <- (app_nil_r (fixed_digits N (Z.abs e))) at 1.
    apply span_digits_app; [apply fixed_digits_digits|exact I]. }
  assert (Hne : fixed_digits N (Z.abs e) <> []).
  { intros E. pose proof (fixed_digits_length N (Z.abs e)) as L. rewrite E in L. cbn [length] in L. lia. }
  destruct (Z.ltb_spec e 0); unfold parse_exp; cbn [Ascii.eqb orb Bool.eqb]; rewrite Hs;
    destruct (fixed_digits N (Z.abs e)); try congruence; rewrite Hv; f_equal; f_equal; lia.
Qed.

Lemma sci_value : forall (neg : bool) s t k,
  ((if neg then -1 else 1) * inject_Z s * Qpower (inject_Z 10) (Z.of_nat t - Z.of_nat k)
   == (if neg then -1 else 1) * inject_Z (10 ^ Z.of_nat t * s) / inject_Z (10 ^ Z.of_nat k))%Q.
Proof.
  intros neg s t k. unfold Z.sub. rewrite Qpower_plus by (intros H; discriminate H).
  rewrite Qpower_opp, !Qpow10_inject, inject_Z_mult.
  pose proof (pow10_nz k). field. exact H.
Qed.

Lemma float_digits_parse : forall (neg : bool) x k, (0 <= x)%Z ->
  exists q, parse_num (string_of_list_ascii (sign_text neg ++ float_digits x k))
              = Some q /\
            (q == (if neg then -1 else 1) * inject_Z x / inject_Z (10 ^ Z.of_nat k))%Q.
Proof.
  intros neg x k Hx. unfold float_digits.
  pose proof (strip_by_spec 10 (Pos.to_nat (Pos.size (Z.to_pos x))) x ltac:(lia)) as ST.
  destruct (strip_by 10 (Pos.to_nat (Pos.size (Z.to_pos x))) x) as [t s].
  assert (Ht : (0 < 10 ^ Z.of_nat t)%Z) by (apply Z.pow_pos_nonneg; lia).
  assert (Hs : (0 <= s)%Z) by nia.
  destruct (ndigits_bound s Hs) as [Hsb Hns].
  assert (Hk : (0 < 10 ^ Z.of_nat k)%Z) by (apply Z.pow_pos_nonneg; lia).
  remember (ndigits s) as ns eqn:Ens.
  match goal with |- context [if ?b then dec_digits _ ++ _ else _] => destruct b end.
  - (* positional notation *)
    set (Ip := (x / 10 ^ Z.of_nat k)%Z).
    set (F := match k with O => ["0"%char] | S _ => fixed_digits k x end).
    assert (HF : forallb is_digit F = true)
      by (unfold F; destruct k; [reflexivity|apply fixed_digits_digits]).
    assert (HI : (0 <= Ip)%Z) by (apply Z.div_pos; lia).
    erewrite parse_num_spec.
    2: apply sign_split_prefix; [apply dec_digits_ne, HI|apply fixed_digits_digits].
    2: apply span_digits_app; [apply fixed_digits_digits|reflexivity].
    2: change (frac_split ("."%char :: F)) with (span_digits F);
       rewrite <- (app_nil_r F) at 1; apply span_digits_app; [exact HF|exact I].
    2: reflexivity.
    2: destruct (dec_digits Ip) eqn:E; [exfalso; exact (dec_digits_ne _ HI E)|discriminate].
    eexists; split; [reflexivity|].
    rewrite digits_value_app, dec_digits_value by exact HI.
    destruct k as [|k'].
    + unfold F, Ip. change (10 ^ Z.of_nat 0)%Z with 1%Z. rewrite Z.div_1_r.
      change (digits_value ["0"%char]) with 0%Z.
      change (Z.of_nat (length ["0"%char])) with 1%Z.
      change (Qpower (inject_Z 10) (0 - 1)%Z) with (1 # 10)%Q.
      change (inject_Z 1) with 1%Q. rewrite Z.add_0_r, inject_Z_mult.
      change (inject_Z (10 ^ 1)) with (10 # 1)%Q. field.
    + unfold F. rewrite fixed_digits_value, fixed_digits_length.
      replace (Ip * 10 ^ Z.of_nat (S k') + x mod 10 ^ Z.of_nat (S k'))%Z with x
        by (unfold Ip; pose proof (Z.div_mod x (10 ^ Z.of_nat (S k')) ltac:(lia)); lia).
      pose proof (sci_value neg x 0 (S k')) as V. rewrite Z.pow_0_r, Z.mul_1_l in V. exact V.
  - (* scientific notation *)
    assert (Hld : (0 <= s / 10 ^ Z.of_nat (ns - 1) < 10)%Z).
    { split; [apply Z.div_pos; [lia|apply Z.pow_pos_nonneg; lia]|].
      apply Z.div_lt_upper_bound; [apply Z.pow_pos_nonneg; lia|].
      replace (10 ^ Z.of_nat (ns - 1) * 10)%Z with (10 ^ Z.of_nat ns)%Z; [exact Hsb|].
      rewrite Z.mul_comm, <- Z.pow_succ_r by lia. f_equal. lia. }
    set (lead := (s / 10 ^ Z.of_nat (ns - 1))%Z) in *.
    assert (Hd : is_digit (digit_char lead) = true) by (apply digit_char_is_digit; exact Hld).
    destruct ns as [|[|n2]]; [lia| |].
    + cbn [app].
      erewrite parse_num_spec.
      2: apply sign_split_prefix1; exact Hd.
      2: apply span_digits_one; [exact Hd|reflexivity].
      2: reflexivity.
      2: apply parse_exp_text.
      2: discriminate.
      eexists; split; [reflexivity|].
      unfold digits_value; cbn [app fold_left length]. rewrite digit_val_char by exact Hld.
      unfold lead. change (10 ^ Z.of_nat (1 - 1))%Z with 1%Z. rewrite Z.div_1_r, ST.
      replace (0 * 10 + s)%Z with s by lia.
      match goal with |- context [Qpower _ ?e] => replace e with (Z.of_nat t - Z.of_nat k)%Z by lia end.
      apply sci_value.
    + cbn [app].
      erewrite parse_num_spec.
      2: apply sign_split_prefix1; exact Hd.
      2: apply span_digits_one; [exact Hd|reflexivity].
      2: change (frac_split ("."%char :: fixed_digits (S (S n2) - 1) s ++ "e"%char
                   :: exp_text (Z.of_nat (S (S n2)) - 1 + Z.of_nat t - Z.of_nat k)))
           with (span_digits (fixed_digits (S (S n2) - 1) s ++ "e"%char
                   :: exp_text (Z.of_nat (S (S n2)) - 1 + Z.of_nat t - Z.of_nat k)));
         apply span_digits_app; [apply fixed_digits_digits|reflexivity].
      2: apply parse_exp_text.
      2: discriminate.
      eexists; split; [reflexivity|].
      rewrite digits_value_app, fixed_digits_length, fixed_digits_value.
      unfold digits_value at 1; cbn [fold_left]. rewrite digit_val_char by exact Hld.
      replace (0 * 10 + lead)%Z with lead by lia.
      replace (lead * 10 ^ Z.of_nat (S (S n2) - 1) + s mod 10 ^ Z.of_nat (S (S n2) - 1))%Z with s
        by (unfold lead; pose proof (Z.div_mod s (10 ^ Z.of_nat (S (S n2) - 1))
                                      ltac:(apply Z.pow_nonzero; lia)); lia).
      rewrite ST.
      match goal with |- context [Qpower _ ?e] => replace e with (Z.of_nat t - Z.of_nat k)%Z by lia end.
      apply sci_value.
Qed.

Lemma float_repr_parse : forall q txt, float_repr q = Some txt ->
  exists q', parse_num txt = Some q' /\ (q' == q)%Q.
Proof.
  intros q txt H. unfold float_repr, decimal_text in H.
  destruct (decimal_of q) as [[m k]|] eqn:E; [|discriminate]. injection H as <-.
  destruct (float_digits_parse (Z.ltb m 0) (Z.abs m) k ltac:(lia)) as [q' [Hp Hv]].
  exists q'. split; [exact Hp|]. rewrite Hv.
  apply decimal_of_value in E.
  assert (Hm : ((if Z.ltb m 0 then -1 else 1) * inject_Z (Z.abs m) == inject_Z m)%Q).
  { rewrite sign_value by lia. apply inject_Z_injective. destruct (Z.ltb_spec m 0); lia. }
  rewrite Hm, E. pose proof (pow10_nz k). field. exact H.
Qed.

Lemma float_repr_finite : forall q, finite_decimal q -> exists txt, float_repr q = Some txt.
Proof.
  intros q Hq. destruct (decimal_of_finite q Hq) as [m [k E]]. unfold float_repr. rewrite E. eauto.
Qed.

End NumberText.

Lemma decimal_text_int : forall z, exists q,
  parse_num (decimal_text z 0) = Some q /\ (q == inject_Z z)%Q.
Proof.
  intros z. destruct (float_digits_parse (Z.ltb z 0) (Z.abs z) 0 ltac:(lia)) as [q [Hp Hv]].
  exists q. split; [exact Hp|]. rewrite Hv, sign_value by lia.
  change (10 ^ Z.of_nat 0)%Z with 1%Z. change (inject_Z 1) with 1%Q.
  transitivity (inject_Z (if Z.ltb z 0 then - Z.abs z else Z.abs z)%Z); [field|].
  apply inject_Z_injective. destruct (Z.ltb_spec z 0); lia.
Qed.

Lemma fmt_cell_lossless : forall fmt_other col v q,
  ((exists z, v = PInt z /\ q = inject_Z z) \/ (v = PFloat q /\ finite_decimal q)) ->
  exists q', parse_num (fmt_cell fmt_other col v) = Some q' /\ (q' == q)%Q.
Proof.
  intros fmt_other col v q [[z [-> ->]]|[-> Hq]]; cbn [fmt_cell].
  - destruct (col_dtype col); first [apply decimal_text_int|apply int_text_parse].
  - destruct (float_repr_finite q Hq) as [txt E]. rewrite E. exact (float_repr_parse q txt E).
Qed.

Ltac solve_subseq :=
  repeat first [ apply subseq_nil | apply subseq_take | apply subseq_skip ].

(** C3 (export format, corrected): the header of an export holds every
    column of the log, for the entries the application creates the
    eighteen keys of [weather_keys] in their order, of which the ten
    documented fields are an ordered part (with [main] and the enrichment
    fields in between, so not a prefix); then one line per entry in log
    order, a cell per column; fields are comma-separated and quoted when
    they contain a comma, a quote or a line break, so that reading the
    text back with a CSV reader recovers exactly the header and each cell
    text; and a numeric cell, an int or a float (a finite decimal, as
    every machine float is), is written in its column's dtype as a text
    that Python's [float] reads back as the same value; an empty log
    exports the empty text, without a header. *)
Theorem export_header_rows_roundtrip :
  subseq ["timestamp"; "city"; "country"; "temperature"; "feels_like"; "humidity";
          "pressure"; "description"; "wind_speed"; "status"] weather_keys /\
  forall fmt_other,
    save_weather_logs_csv fmt_other [] = EmptyString /\
    forall weather_logs, reachable weather_logs -> weather_logs <> [] ->
      csv_rows fmt_other weather_logs =
        weather_keys :: map (fun row => map (csv_cell fmt_other weather_logs row) weather_keys)
                            weather_logs /\
      csv_read (save_weather_logs_csv fmt_other weather_logs) = csv_rows fmt_other weather_logs /\
      (forall row k v q, In row weather_logs -> dict_lookup row k = Some v ->
         ((exists z, v = PInt z /\ q = inject_Z z) \/ (v = PFloat q /\ finite_decimal q)) ->
         exists q', parse_num (csv_cell fmt_other weather_logs row k) = Some q' /\ (q' == q)%Q).
Proof.
  split; [solve_subseq|]. intros fmt_other. split; [reflexivity|].
  intros l Hr Hne.
  assert (Hc : df_columns l = weather_keys) by (apply df_columns_keyed; [apply reachable_keyed|]; assumption).
  split; [|split].
  - unfold csv_rows. rewrite Hc. reflexivity.
  - apply csv_read_save; [exact Hne|]. rewrite Hc. discriminate.
  - intros row k v q _ Hv Hnum. unfold csv_cell. rewrite Hv. apply fmt_cell_lossless. exact Hnum.
Qed.

(** The export of a one-entry log does not begin with the ten documented
    fields, and a city name holding a comma is written between quotes and
    read back whole; the empty log exports no header. *)
Lemma export_header_not_minimal_prefix :
  let fmt := fun (_ : list pyval) (_ : pyval) => "v" in
  let text := save_weather_logs_csv fmt [demo_data 0%Z "Washington, D.C."] in
  String.prefix "timestamp,city,country,temperature,feels_like,humidity,pressure,description,wind_speed,status" text = false /\
  (exists k, String.index 0 (String quote_char ("Washington, D.C." ++ String quote_char EmptyString)) text = Some k) /\
  nth_error (nth 1 (csv_read text) []) 1 = Some "Washington, D.C." /\
  save_weather_logs_csv fmt [] = EmptyString.
Proof.
  split; [vm_compute; reflexivity|]. split; [eexists; vm_compute; reflexivity|].
  split; vm_compute; reflexivity.
Qed.

(** * Instances of the properties on concrete sessions *)

Ltac solve_numeric_row :=
  split; [eexists; reflexivity|];
  let k := fresh "k" in let Hk := fresh "Hk" in
  intros k Hk;
  repeat (destruct Hk as [<-|Hk]; [do 2 eexists; split; reflexivity|]);
  destruct Hk.

Ltac solve_numeric_rows :=
  let row := fresh "row" in let Hin := fresh "Hin" in
  intros row Hin;
  repeat (destruct Hin as [<-|Hin]; [solve_numeric_row|]);
  destruct Hin.

Lemma alert_scan_first_matching_rule_witness :
  let row := [("city", PStr "Madrid"); ("temperature", PInt 40); ("humidity", PInt 20);
              ("wind_speed", PInt 20); ("pressure", PInt 1010)] in
  numeric_row row /\ dict_lookup row "temperature" = Some (PInt 40) /\
  dict_lookup row "wind_speed" = Some (PInt 20) /\
  alert_scan [row] = inr [ExtremeHeat (df_cell row "city") (PInt 40)].
Proof.
  intros row. assert (Hn : numeric_row row) by solve_numeric_row.
  split; [exact Hn|]. split; [reflexivity|]. split; [reflexivity|].
  exact (proj2 alert_scan_first_matching_rule row Hn eq_refl eq_refl).
Defined.

Lemma forecast_series_window_witness :
  let buckets := [mk_point 10800 20; mk_point 64800 18] in
  In (mk_point 10800 20) (forecast_series 0 buckets) /\
  (0 <= fp_time (mk_point 10800 20) <= 0 + 12 * 3600)%Z.
Proof.
  intros buckets.
  assert (Hin : In (mk_point 10800 20) (forecast_series 0 buckets)) by (vm_compute; left; reflexivity).
  split; [exact Hin|].
  exact (proj1 (forecast_series_window 0 buckets) _ Hin).
Defined.

Lemma export_header_rows_roundtrip_witness :
  let l := [demo_data 0%Z "London"] in
  let fmt := fun (_ : list pyval) (_ : pyval) => "x" in
  reachable l /\ l <> [] /\
  csv_read (save_weather_logs_csv fmt l) = csv_rows fmt l /\
  csv_cell fmt l (demo_data 0%Z "London") "temperature" = "22.5" /\
  exists q', parse_num (csv_cell fmt l (demo_data 0%Z "London") "temperature") = Some q' /\
             (q' == 225 # 10)%Q.
Proof.
  intros l fmt.
  assert (Hr : reachable l).
  { apply (reach_step [] l reach_start).
    exists (fun _ _ _ => TimedOut "timeout"), 0%Z, (fun _ => "x"),
           (GetWeather "London" "demo_mode"), 0%nat, 0%nat.
    reflexivity. }
  assert (Hne : l <> []) by discriminate.
  assert (Hfin : finite_decimal (225 # 10)) by (exists 225%Z, 1%nat; vm_compute; reflexivity).
  destruct (proj2 export_header_rows_roundtrip fmt) as [_ H].
  destruct (H l Hr Hne) as [_ [Hread Hnum]].
  split; [exact Hr|]. split; [exact Hne|]. split; [exact Hread|].
  split; [vm_compute; reflexivity|].
  apply (Hnum (demo_data 0%Z "London") "temperature" (PFloat (225 # 10)) (225 # 10)).
  - left. reflexivity.
  - reflexivity.
  - right. split; [reflexivity|exact Hfin].
Defined.

Lemma city_stats_per_distinct_city_witness :
  (forall row, In row sample_city_log -> numeric_row row) /\
  exists table, city_stats sample_city_log = inr (Some table) /\
    (forall c s, In (c, s) table -> s = expected_city_row (group_rows sample_city_log c)).
Proof.
  assert (Hn : forall row, In row sample_city_log -> numeric_row row) by solve_numeric_rows.
  split; [exact Hn|].
  destruct (proj1 city_stats_per_distinct_city sample_city_log Hn ltac:(discriminate)) as [_ H2].
  destruct H2 as (table & E & _ & Hs & _); [vm_compute; lia|].
  exists table. split; [exact E|exact Hs].
Defined.

Lemma observation_log_append_only_witness :
  let l' := [demo_data 0%Z "London"] in
  session_step [] l' /\ (l' = [] \/ exists added, l' = [] ++ added).
Proof.
  intros l'.
  assert (H : session_step [] l').
  { exists (fun _ _ _ => TimedOut "timeout"), 0%Z, (fun _ => "x"),
           (GetWeather "London" "demo_mode"), 0%nat, 0%nat.
    reflexivity. }
  split; [exact H|]. exact (proj1 (proj2 observation_log_append_only) _ _ H).
Defined.

Lemma fetch_errors_tagged_log_unchanged_witness :
  let p := fun (_ : nat) (_ : string) (_ : list (string * string)) => TimedOut "read timeout" in
  get_weather_data p 0%Z (fun _ => "x") "London" "k123" 0%nat =
    (1%nat, inr (false, None, Some "Request timed out")) /\
  tab1_get_weather p 0%Z (fun _ => "x") [demo_data 0%Z "Paris"] "London" "k123" 0%nat =
    (1%nat, inr [demo_data 0%Z "Paris"]).
Proof.
  intros p.
  assert (Hg : get_weather_data p 0%Z (fun _ => "x") "London" "k123" 0%nat =
               (1%nat, inr (false, None, Some "Request timed out"))) by reflexivity.
  split; [exact Hg|].
  exact (proj2 (proj2 (fetch_errors_tagged_log_unchanged p 0%Z (fun _ => "x") "London" "k123" 0%nat))
           [demo_data 0%Z "Paris"] "Request timed out"
           ltac:(discriminate) ltac:(discriminate) ltac:(discriminate) Hg).
Defined.

Lemma alerts_surface_last_five_witness :
  let l := [demo_batch_entry 0%Z "London" (sample_draw 40)] in
  alerts_panel l = inr (AlertsShown [ExtremeHeat (PStr "London") (PFloat 40)]) /\
  exists older, alert_scan l = inr (older ++ [ExtremeHeat (PStr "London") (PFloat 40)]) /\
    [ExtremeHeat (PStr "London") (PFloat 40)] <> [] /\
    (length [ExtremeHeat (PStr "London") (PFloat 40)] <= 5)%nat /\
    (older = [] \/ length [ExtremeHeat (PStr "London") (PFloat 40)] = 5%nat).
Proof.
  intros l.
  assert (H : alerts_panel l = inr (AlertsShown [ExtremeHeat (PStr "London") (PFloat 40)]))
    by (vm_compute; reflexivity).
  split; [exact H|]. exact (proj1 (alerts_surface_last_five l) _ H).
Defined.

Lemma weather_entry_optional_defaults_witness :
  let d := owm_fields (PInt 20) (PFloat (35 # 10)) [("deg", PInt 270)] [("visibility", PInt 10000)] in
  exists e,
    dict_lookup d "wind" = Some (PDict [("speed", PFloat (35 # 10)); ("deg", PInt 270)]) /\
    build_weather_entry 0%Z (PDict d) = inr e /\
    dict_lookup e "wind_direction" = Some (PInt 270) /\
    (exists q, dict_lookup e "visibility" = Some (PFloat q) /\
       exists q0, num_of (PInt 10000) = Some q0 /\ q == q0 / 1000).
Proof.
  intros d.
  destruct (build_weather_entry 0%Z (PDict d)) as [ex|e] eqn:Hb;
    [vm_compute in Hb; discriminate Hb|].
  assert (Hw : dict_lookup d "wind" = Some (PDict [("speed", PFloat (35 # 10)); ("deg", PInt 270)]))
    by reflexivity.
  exists e. split; [exact Hw|]. split; [reflexivity|].
  exact (proj1 weather_entry_optional_defaults 0%Z d _ e Hw Hb).
Defined.

(** * Further properties of the program *)

(** ** Weather emoji *)

(** The emoji follows the first keyword found in the order of the
    [if]/[elif] chain: the storm emoji only for a description that
    mentions thunder and none of the earlier keywords, the default emoji
    exactly when no keyword occurs; a thunderstorm with rain shows rain,
    whatever the letter case. *)
Theorem get_weather_emoji_priority : forall description,
  let has k := py_in k (py_lower description) in
  (get_weather_emoji description = "⛈️" <->
     has "thunder" = true /\ has "clear" = false /\ has "cloud" = false /\
     has "rain" = false /\ has "drizzle" = false /\ has "snow" = false) /\
  (get_weather_emoji description = "🌤️" <->
     forallb (fun k => negb (has k)) emoji_keywords = true) /\
  get_weather_emoji "Thunderstorm With Light Rain" = "🌧️".
Proof.
  intros d has. subst has. cbv beta. unfold get_weather_emoji, emoji_keywords.
  cbn [forallb]. cbv zeta.
  split; [|split; [|vm_compute; reflexivity]];
  destruct (py_in "clear" (py_lower d)), (py_in "cloud" (py_lower d)),
           (py_in "rain" (py_lower d)), (py_in "drizzle" (py_lower d)),
           (py_in "snow" (py_lower d)), (py_in "thunder" (py_lower d)),
           (py_in "mist" (py_lower d)), (py_in "fog" (py_lower d));
  cbn; split; intros H;
  repeat match goal with Hc : _ /\ _ |- _ => destruct Hc end;
  first [ reflexivity | discriminate | (repeat split; reflexivity)
        | (exfalso; match goal with Hd : _ = _ |- _ => discriminate Hd end) ].
Qed.

(** ** Fetch results *)



(** A rejection of [get_weather_data] (a status other than 200) carries
    the body's [message], or "Unknown error" when it has none, after
    "API Error: "; a body that is not JSON fails as a network error, since
    requests' JSON decoding error is a [RequestException]. *)
Theorem get_weather_data_rejection : forall provider now py_str city api_key n st,
  st <> 200%Z ->
  (forall b,
     provider n weather_url (query city api_key) = Responded (mk_response st (Some (PDict b))) ->
     get_weather_data provider now py_str city api_key n =
       (S n, inr (false, None, Some ("API Error: " ++
          py_str (match dict_lookup b "message" with Some m => m | None => PStr "Unknown error" end))%string))) /\
  (provider n weather_url (query city api_key) = Responded (mk_response st None) ->
   get_weather_data provider now py_str city api_key n =
     (S n, inr (false, None, Some "Network error: Expecting value: line 1 column 1 (char 0)"))).
Proof.
  intros provider now py_str city key n st Hst. apply Z.eqb_neq in Hst.
  split; [intros b Hp|intros Hp];
    unfold get_weather_data, io_try, io_bind, requests_get, io_lift, io_ret;
    rewrite Hp; cbn [status_code body response_json]; rewrite Hst; [|reflexivity].
  cbn [dict_get]. destruct (dict_lookup b "message"); reflexivity.
Qed.

Lemma get_weather_data_shape : forall provider now py_str city key n,
  exists res, get_weather_data provider now py_str city key n = (S n, inr res) /\
    ((exists e, res = (true, Some e, None)) \/ (exists msg, res = (false, None, Some msg))).
Proof.
  intros provider now py_str city key n.
  unfold get_weather_data, io_try, io_bind, requests_get, io_lift, io_ret.
  destruct (provider n weather_url (query city key)) as [[st b]|m|m];
    cbn [status_code body response_json];
    [destruct (Z.eqb st 200); destruct b as [data|]; cbn [response_json body];
       [destruct (build_weather_entry now data) as [[m|m|nm m]|e]
       | |destruct (dict_get data "message" (PStr "Unknown error")) as [[m|m|nm m]|v] | ]
    | |];
    eexists; (split; [reflexivity|]);
    first [left; eexists; reflexivity | right; eexists; reflexivity].
Qed.

(** A 200 response whose body normalizes is logged as the normalized
    entry: stamped with the clock reading and "success", its city the
    provider's [name] (not the city typed in the query), its temperature,
    humidity and wind speed the body's [main.temp], [main.humidity] and
    [wind.speed]. *)
Theorem get_weather_data_entry_fields : forall provider now py_str city api_key n data e,
  provider n weather_url (query city api_key) = Responded (mk_response 200 (Some data)) ->
  build_weather_entry now data = inr e ->
  get_weather_data provider now py_str city api_key n = (S n, inr (true, Some e, None)) /\
  dict_keys e = weather_keys /\
  dict_lookup e "timestamp" = Some (PTime now) /\
  dict_lookup e "status" = Some (PStr "success") /\
  getitem data "name" = inr (df_cell e "city") /\
  exc_bind (getitem data "main") (fun m => getitem m "temp") = inr (df_cell e "temperature") /\
  exc_bind (getitem data "main") (fun m => getitem m "humidity") = inr (df_cell e "humidity") /\
  exc_bind (getitem data "wind") (fun w => getitem w "speed") = inr (df_cell e "wind_speed").
Proof.
  intros provider now py_str city key n data e Hp Hb.
  split; [|split; [eapply build_weather_entry_keys; exact Hb|]].
  - unfold get_weather_data, io_try, io_bind, requests_get, io_lift, io_ret.
    rewrite Hp. cbn [status_code body response_json Z.eqb]. rewrite Hb. reflexivity.
  - unfold build_weather_entry in Hb. exc_steps Hb. unfold exc_ret in Hb.
    injection Hb as <-.
    repeat split; unfold exc_bind;
      repeat match goal with
             | H : ?x = inr _ |- context [?x] => rewrite H
             end; reflexivity.
Qed.

Lemma build_weather_entry_status : forall now data e,
  build_weather_entry now data = inr e -> dict_lookup e "status" = Some (PStr "success").
Proof.
  intros now data e H. unfold build_weather_entry in H. exc_steps H.
  unfold exc_ret in H. injection H as <-. reflexivity.
Qed.

Lemma get_weather_data_success : forall provider now py_str city key n n1 s w m,
  get_weather_data provider now py_str city key n = (n1, inr (s, Some w, m)) ->
  dict_keys w = weather_keys /\ dict_lookup w "status" = Some (PStr "success").
Proof.
  intros provider now py_str city key n n1 s w m H.
  split; [eapply get_weather_data_keys; exact H|].
  unfold get_weather_data, io_try, io_bind, requests_get, io_lift, io_ret in H.
  destruct (provider n weather_url (query city key)) as [[st b]|msg|msg];
    cbn [status_code body response_json] in H; [|discriminate H|discriminate H].
  destruct (Z.eqb st 200); destruct b as [data|]; cbn [response_json body] in H;
    try discriminate H.
  - destruct (build_weather_entry now data) as [ex|e] eqn:Eb.
    + destruct ex; discriminate H.
    + injection H as _ _ <- _. eapply build_weather_entry_status. exact Eb.
  - destruct (dict_get data "message" (PStr "Unknown error")) as [ex|v];
      [destruct ex|]; discriminate H.
Qed.

Lemma batch_fetch_count : forall provider now py_str key cities l n,
  exists added,
    batch_fetch provider now py_str l cities key n = ((n + length cities)%nat, inr (l ++ added)) /\
    (length added <= length cities)%nat /\
    (forall e, In e added ->
       dict_keys e = weather_keys /\ dict_lookup e "status" = Some (PStr "success")).
Proof.
  intros provider now py_str key. induction cities as [|c cs IH]; intros l n.
  - exists []. rewrite app_nil_r, Nat.add_0_r. split; [reflexivity|]. split; [reflexivity|].
    intros e [].
  - destruct (get_weather_data_shape provider now py_str c key n) as [res [E Hres]].
    cbn [batch_fetch]. unfold io_bind. rewrite E.
    destruct Hres as [[e ->]|[msg ->]].
    + destruct (IH (add_weather_log l e) (S n)) as [added [E' [Hl Ha]]].
      exists (e :: added). cbn -[batch_fetch]. rewrite E'.
      split; [|split].
      * replace (S n + length cs)%nat with (n + S (length cs))%nat by lia.
        unfold add_weather_log. rewrite <- app_assoc. reflexivity.
      * cbn [length]. lia.
      * intros x [<-|Hx]; [eapply get_weather_data_success; exact E|apply Ha, Hx].
    + destruct (IH l (S n)) as [added [E' [Hl Ha]]].
      exists added. cbn -[batch_fetch]. rewrite E'.
      split; [|split; [cbn [length]; lia|exact Ha]].
      replace (S n + length cs)%nat with (n + S (length cs))%nat by lia. reflexivity.
Qed.

(** ** The buttons of Tab 1 *)

(** "Get Weather" does nothing without a city or a key; in demo mode it
    logs the demo entry of the typed city without sending a request;
    otherwise it sends one request and logs the entry on success, and
    leaves the log as it was on failure. *)
Theorem tab1_get_weather_cases : forall provider now py_str weather_logs city_input api_key n,
  ((city_input = "" \/ api_key = "") ->
     tab1_get_weather provider now py_str weather_logs city_input api_key n = (n, inr weather_logs)) /\
  (city_input <> "" -> api_key = "demo_mode" ->
     tab1_get_weather provider now py_str weather_logs city_input api_key n =
       (n, inr (weather_logs ++ [demo_data now city_input]))) /\
  (city_input <> "" -> api_key <> "" -> api_key <> "demo_mode" ->
     exists res, get_weather_data provider now py_str city_input api_key n = (S n, inr res) /\
       tab1_get_weather provider now py_str weather_logs city_input api_key n =
         (S n, inr (match res with (true, Some w, _) => weather_logs ++ [w] | _ => weather_logs end))).
Proof.
  intros provider now py_str l c k n. unfold tab1_get_weather. split; [|split].
  - intros [->| ->]; [reflexivity|]. destruct (negb (String.eqb c "")); reflexivity.
  - intros Hc ->. apply String.eqb_neq in Hc. rewrite Hc. reflexivity.
  - intros Hc Hk Hd. apply String.eqb_neq in Hc, Hk, Hd. rewrite Hc, Hk, Hd.
    destruct (get_weather_data_shape provider now py_str c k n) as [res [E Hres]].
    exists res. split; [exact E|]. cbn [negb andb]. unfold io_bind. rewrite E.
    destruct Hres as [[e ->]|[msg ->]]; reflexivity.
Qed.

(** "Batch Cities" does nothing in demo mode or without a key; otherwise
    it sends exactly one request for each of the first three favourite
    cities (fewer when there are fewer), whatever their outcome, and
    appends the entries of the successful fetches only, each a complete
    entry marked "success". *)
Theorem batch_cities_requests : forall provider now py_str api_key favorite_cities weather_logs n,
  ((api_key = "demo_mode" \/ api_key = "") ->
     handle provider now py_str (BatchCities api_key favorite_cities) weather_logs n =
       (n, inr weather_logs)) /\
  (api_key <> "demo_mode" -> api_key <> "" ->
     exists added,
       handle provider now py_str (BatchCities api_key favorite_cities) weather_logs n =
         ((n + Nat.min 3 (length favorite_cities))%nat, inr (weather_logs ++ added)) /\
       (length added <= Nat.min 3 (length favorite_cities))%nat /\
       (forall e, In e added ->
          dict_keys e = weather_keys /\ dict_lookup e "status" = Some (PStr "success"))).
Proof.
  intros provider now py_str k favs l n. unfold handle. split.
  - intros [->| ->]; [reflexivity|]. reflexivity.
  - intros Hd Hk. apply String.eqb_neq in Hd, Hk. rewrite Hd, Hk. cbn [negb andb].
    rewrite <- length_firstn. apply batch_fetch_count.
Qed.

(** "Demo Weather" sends no request and appends five demo entries, one
    for each of London, Paris, New York, Tokyo and Mumbai in that order,
    each a complete entry marked "demo". *)
Theorem demo_weather_five_cities : forall provider now py_str draws weather_logs n,
  (5 <= length draws)%nat ->
  exists added,
    handle provider now py_str (DemoWeather draws) weather_logs n = (n, inr (weather_logs ++ added)) /\
    map (fun e => df_cell e "city") added = map PStr demo_cities /\
    (forall e, In e added ->
       dict_keys e = weather_keys /\ dict_lookup e "status" = Some (PStr "demo")).
Proof.
  intros provider now py_str draws l n H.
  destruct draws as [|r1 [|r2 [|r3 [|r4 [|r5 rs]]]]]; cbn [length] in H; try lia.
  eexists. split; [|split].
  - unfold handle, io_ret. cbn [demo_batch demo_cities]. unfold add_weather_log.
    rewrite <- !app_assoc. reflexivity.
  - reflexivity.
  - intros e He. repeat (destruct He as [<-|He]; [split; reflexivity|]). destruct He.
Qed.

(** [datetime.now().replace(hour=h, minute=m)] stays on the same day, at
    hour [h] and minute [m], keeping the seconds of [now]. *)
Theorem time_replace_hm_same_day : forall t h m,
  (0 <= h < 24)%Z -> (0 <= m < 60)%Z ->
  (time_replace_hm t h m / 86400000000 = t / 86400000000)%Z /\
  (time_replace_hm t h m mod 86400000000 =
     h * 3600000000 + m * 60000000 + t mod 60000000)%Z.
Proof.
  intros t h m Hh Hm. unfold time_replace_hm.
  assert (Hs : (0 <= t mod 60000000 < 60000000)%Z) by (apply Z.mod_pos_bound; lia).
  assert (Ht : (t - t mod 86400000000 = 86400000000 * (t / 86400000000))%Z)
    by (rewrite (Z.div_mod t 86400000000) at 1 by lia; lia).
  set (x := (h * 3600000000 + m * 60000000 + t mod 60000000)%Z).
  assert (Hx : (0 <= x < 86400000000)%Z) by (unfold x; nia).
  replace (t - t mod 86400000000 + h * 3600000000 + m * 60000000 + t mod 60000000)%Z
    with (x + (t / 86400000000) * 86400000000)%Z by (unfold x; lia).
  split.
  - rewrite Z.div_add by lia. rewrite Z.div_small by exact Hx. lia.
  - rewrite Z.mod_add by lia. apply Z.mod_small. exact Hx.
Qed.

(** ** Sidebar quick stats *)








(** ** Condition distribution *)

Lemma insert_count_perm : forall x l, Permutation (insert_count x l) (x :: l).
Proof.
  intros x. induction l as [|y l IH]; cbn [insert_count]; [reflexivity|].
  destruct (Nat.ltb (snd y) (snd x)); [reflexivity|].
  eapply perm_trans; [apply perm_skip, IH|apply perm_swap].
Qed.

Lemma fold_insert_count_perm : forall (g : pyval -> pyval * nat) us acc,
  Permutation (fold_left (fun acc v => insert_count (g v) acc) us acc) (map g us ++ acc).
Proof.
  intros g. induction us as [|u us IH]; intros acc; [reflexivity|]. cbn [fold_left map].
  eapply perm_trans; [apply IH|].
  eapply perm_trans; [apply Permutation_app_head, insert_count_perm|].
  symmetry. apply Permutation_middle.
Qed.

Definition count_desc (a b : pyval * nat) : Prop := (snd b <= snd a)%nat.

Lemma insert_count_hd : forall x y l,
  (snd x <= snd y)%nat -> HdRel count_desc y l -> HdRel count_desc y (insert_count x l).
Proof.
  intros x y [|z l] Hxy H; cbn [insert_count]; [constructor; exact Hxy|].
  destruct (Nat.ltb (snd z) (snd x)); constructor; [exact Hxy|inversion H; assumption].
Qed.

Lemma insert_count_sorted : forall x l, Sorted count_desc l -> Sorted count_desc (insert_count x l).
Proof.
  intros x. induction l as [|y l IH]; intros H; cbn [insert_count].
  - repeat constructor.
  - destruct (Nat.ltb (snd y) (snd x)) eqn:E.
    + apply Nat.ltb_lt in E. constructor; [exact H|]. constructor. unfold count_desc. lia.
    + apply Nat.ltb_ge in E. inversion H; subst. constructor; [apply IH; assumption|].
      apply insert_count_hd; assumption.
Qed.

Lemma fold_insert_count_sorted : forall (g : pyval -> pyval * nat) us acc,
  Sorted count_desc acc ->
  Sorted count_desc (fold_left (fun acc v => insert_count (g v) acc) us acc).
Proof.
  intros g. induction us as [|u us IH]; intros acc H; [exact H|].
  apply IH, insert_count_sorted, H.
Qed.

Lemma py_unique_acc_nodup : forall vs seen,
  (forall v, In v vs -> exists s, v = PStr s) -> NoDup seen -> NoDup (py_unique_acc seen vs).
Proof.
  induction vs as [|v vs IH]; intros seen Hs Hn; cbn [py_unique_acc].
  - apply NoDup_rev. exact Hn.
  - destruct (Hs v (or_introl eq_refl)) as [s ->].
    assert (Hs' : forall w, In w vs -> exists s, w = PStr s)
      by (intros w Hw; apply Hs; right; exact Hw).
    destruct (existsb (pyval_eqb (PStr s)) seen) eqn:E; [apply IH; assumption|].
    apply IH; [exact Hs'|]. constructor; [|exact Hn].
    intros Hin. assert (existsb (pyval_eqb (PStr s)) seen = true) as E'
      by (apply existsb_exists; exists (PStr s); split; [exact Hin|apply String.eqb_refl]).
    congruence.
Qed.

Lemma count_val_present : forall s vs,
  count_val (PStr s) (filter (fun v => negb (is_none v)) vs) = count_val (PStr s) vs.
Proof.
  intros s. unfold count_val. induction vs as [|a vs IH]; [reflexivity|].
  destruct (is_none a) eqn:Ea.
  - destruct a; try discriminate Ea. cbn. exact IH.
  - cbn [filter]. rewrite Ea. cbn [negb filter].
    destruct (pyval_eqb (PStr s) a); cbn [length]; rewrite IH; reflexivity.
Qed.

(** [df['main'].value_counts()] on a column of strings and missing values
    lists each distinct string once and no missing value, pairs each with
    its number of occurrences in the column, and lists the counts from
    the largest down. *)
Theorem value_counts_spec : forall vs,
  (forall v, In v vs -> v = PNone \/ exists s, v = PStr s) ->
  NoDup (map fst (value_counts vs)) /\
  (forall x, In x (map fst (value_counts vs)) <-> In x vs /\ x <> PNone) /\
  (forall x c, In (x, c) (value_counts vs) -> c = count_val x vs) /\
  Sorted count_desc (value_counts vs).
Proof.
  intros vs Hvs.
  set (present := filter (fun v => negb (is_none v)) vs).
  assert (Hp : forall v, In v present -> exists s, v = PStr s).
  { intros v Hv. apply filter_In in Hv. destruct Hv as [Hv Hn].
    destruct (Hvs v Hv) as [->|Hs]; [discriminate Hn|exact Hs]. }
  set (g := fun v => (v, count_val v present)).
  assert (Hperm : Permutation (value_counts vs) (map g (py_unique present))).
  { rewrite <- (app_nil_r (map g (py_unique present))).
    exact (fold_insert_count_perm g (py_unique present) []). }
  assert (Hfst : Permutation (map fst (value_counts vs)) (py_unique present)).
  { assert (E : map fst (map g (py_unique present)) = py_unique present)
      by (rewrite map_map; apply map_id).
    rewrite <- E. apply Permutation_map, Hperm. }
  split; [|split; [|split]].
  - eapply Permutation_NoDup; [symmetry; exact Hfst|].
    apply py_unique_acc_nodup; [exact Hp|constructor].
  - intros x. split.
    + intros Hx. apply (Permutation_in _ Hfst) in Hx.
      apply (proj1 (py_unique_in present Hp x)) in Hx. apply filter_In in Hx.
      destruct Hx as [Hx Hn]. split; [exact Hx|]. intros ->. discriminate Hn.
    + intros [Hx Hn]. apply (Permutation_in _ (Permutation_sym Hfst)).
      apply (proj2 (py_unique_in present Hp x)). apply filter_In. split; [exact Hx|].
      destruct x; try reflexivity. congruence.
  - intros x c Hx. apply (Permutation_in _ Hperm) in Hx.
    apply in_map_iff in Hx. destruct Hx as [v [Hv Hin]]. unfold g in Hv.
    injection Hv as -> <-. apply (proj1 (py_unique_in present Hp x)) in Hin.
    destruct (Hp x Hin) as [s ->]. apply count_val_present.
  - apply fold_insert_count_sorted. constructor.
Qed.

(** ** The columns of the DataFrame *)

Lemma existsb_eqb_in : forall k cols, existsb (String.eqb k) cols = true <-> In k cols.
Proof.
  intros k cols. rewrite existsb_exists. split.
  - intros [x [Hx E]]. apply String.eqb_eq in E. subst. exact Hx.
  - intros H. exists k. split; [exact H|apply String.eqb_refl].
Qed.

Lemma fold_add_column_spec : forall ks cols,
  NoDup cols ->
  NoDup (fold_left add_column ks cols) /\
  (forall k, In k (fold_left add_column ks cols) <-> In k cols \/ In k ks).
Proof.
  induction ks as [|k' ks IH]; intros cols Hn; cbn [fold_left].
  - split; [exact Hn|]. intros k. cbn. tauto.
  - change (add_column cols k')
      with (if existsb (String.eqb k') cols then cols else cols ++ [k']).
    destruct (existsb (String.eqb k') cols) eqn:E.
    + apply existsb_eqb_in in E. destruct (IH cols Hn) as [H1 H2].
      split; [exact H1|]. intros k. rewrite H2. cbn. split; [tauto|].
      intros [H|[<-|H]]; tauto.
    + assert (Hk : ~ In k' cols) by (intros H; apply existsb_eqb_in in H; congruence).
      assert (Hn' : NoDup (cols ++ [k'])).
      { eapply Permutation_NoDup; [apply Permutation_cons_append|]. constructor; assumption. }
      destruct (IH _ Hn') as [H1 H2]. split; [exact H1|].
      intros k. rewrite H2, in_app_iff. cbn. tauto.
Qed.

Lemma df_columns_fold_spec : forall (l : list entry) cols,
  NoDup cols ->
  NoDup (fold_left (fun cols e => fold_left add_column (dict_keys e) cols) l cols) /\
  (forall k, In k (fold_left (fun cols e => fold_left add_column (dict_keys e) cols) l cols) <->
     In k cols \/ exists e, In e l /\ In k (dict_keys e)).
Proof.
  induction l as [|e l IH]; intros cols Hn; cbn [fold_left].
  - split; [exact Hn|]. intros k. split; [tauto|]. intros [H|[e [[] _]]]. exact H.
  - destruct (fold_add_column_spec (dict_keys e) cols Hn) as [H1 H2].
    destruct (IH _ H1) as [H3 H4]. split; [exact H3|]. intros k. rewrite H4, H2.
    split.
    + intros [[H|H]|[e' [He' H]]]; [left; exact H|right; exists e; split; [left; reflexivity|exact H]|].
      right. exists e'. split; [right; exact He'|exact H].
    + intros [H|[e' [[<-|He'] H]]]; [left; left; exact H|left; right; exact H|].
      right. exists e'. split; assumption.
Qed.

(** The columns of [pd.DataFrame(weather_logs)], which head the CSV
    export, name every key of every logged entry, each exactly once, and
    nothing else. *)
Theorem df_columns_keys : forall weather_logs,
  NoDup (df_columns weather_logs) /\
  (forall k, In k (df_columns weather_logs) <-> exists e, In e weather_logs /\ In k (dict_keys e)).
Proof.
  intros l. destruct (df_columns_fold_spec l [] (NoDup_nil _)) as [H1 H2].
  split; [exact H1|]. intros k. unfold df_columns. rewrite H2. cbn. tauto.
Qed.

(** ** Alerts of a longer log *)


(** ** The forecast button of Tab 3 *)

(** The forecast button sends no request without a city, without a key
    or in demo mode; when the fetch fails it shows no forecast; on a 200
    response it keeps the first 20 items of the body's [list], and a body
    without [list] raises a [KeyError] that [get_forecast_data] does not
    catch. *)
Theorem tab3_get_forecast_cases : forall provider py_str forecast_city api_key n,
  ((forecast_city = "" \/ api_key = "" \/ api_key = "demo_mode") ->
     tab3_get_forecast provider py_str forecast_city api_key n = (n, inr None)) /\
  (forecast_city <> "" -> api_key <> "" -> api_key <> "demo_mode" ->
   (forall fd err,
      get_forecast_data provider py_str forecast_city api_key n = (S n, inr (false, fd, err)) ->
      tab3_get_forecast provider py_str forecast_city api_key n = (S n, inr None)) /\
   forall d,
     provider n forecast_url (query forecast_city api_key) = Responded (mk_response 200 (Some (PDict d))) ->
     (forall items, dict_lookup d "list" = Some (PList items) ->
        tab3_get_forecast provider py_str forecast_city api_key n = (S n, inr (Some (PList (firstn 20 items))))) /\
     (dict_lookup d "list" = None ->
        tab3_get_forecast provider py_str forecast_city api_key n = (S n, key_error "list"))).
Proof.
  intros provider py_str c k n. split.
  - unfold tab3_get_forecast. intros [->|[->| ->]]; [reflexivity| |].
    + destruct (negb (String.eqb c "")); reflexivity.
    + destruct (negb (String.eqb c "") && negb (String.eqb "demo_mode" "")); reflexivity.
  - intros Hc Hk Hd. apply String.eqb_neq in Hc, Hk, Hd. split.
    + intros fd err H. unfold tab3_get_forecast. rewrite Hc, Hk, Hd. cbn [negb andb].
      unfold io_bind at 1. rewrite H. reflexivity.
    + intros d Hp. unfold tab3_get_forecast. rewrite Hc, Hk, Hd. cbn [negb andb].
      unfold get_forecast_data, io_try, io_bind, requests_get, io_lift, io_ret.
      rewrite Hp. cbn -[dict_lookup].
      split; [intros items Hl|intros Hl]; rewrite Hl; reflexivity.
Qed.

(** ** Instances of the properties at concrete inputs *)

Lemma get_weather_data_rejection_witness :
  let provider := fun (_ : nat) (_ : string) (_ : list (string * string)) =>
    Responded (mk_response 401 (Some (PDict [("message", PStr "Invalid API key")]))) in
  let py_str := fun v => match v with PStr s => s | _ => "?" end in
  (401 <> 200)%Z /\
  get_weather_data provider 0%Z py_str "London" "k" 0%nat =
    (1%nat, inr (false, None, Some "API Error: Invalid API key")).
Proof.
  intros provider py_str. split; [discriminate|].
  exact (proj1 (get_weather_data_rejection provider 0%Z py_str "London" "k" 0%nat 401
                  ltac:(discriminate)) _ eq_refl).
Defined.

Lemma get_weather_data_entry_fields_witness :
  let data := owm_body (PInt 20) (PFloat (35 # 10)) [] [] in
  exists e,
    build_weather_entry 0%Z data = inr e /\
    get_weather_data (owm_provider data) 0%Z (fun _ => "?") "Paris" "k" 0%nat =
      (1%nat, inr (true, Some e, None)) /\
    df_cell e "city" = PStr "London" /\ df_cell e "temperature" = PInt 20.
Proof.
  intros data.
  destruct (build_weather_entry 0%Z data) as [ex|e] eqn:Hb; [vm_compute in Hb; discriminate Hb|].
  pose proof (get_weather_data_entry_fields (owm_provider data) 0%Z (fun _ => "?") "Paris" "k"
                0%nat data e eq_refl Hb) as H.
  destruct H as [Hg [_ [_ [_ [Hn [Ht _]]]]]].
  exists e. split; [reflexivity|]. split; [exact Hg|].
  split; [injection Hn as <-; reflexivity|injection Ht as <-; reflexivity].
Defined.

Lemma demo_weather_five_cities_witness :
  let draws := repeat (sample_draw 20) 5 in
  (5 <= length draws)%nat /\
  exists added,
    handle (owm_provider (PDict [])) 0%Z (fun _ => "?") (DemoWeather draws) [] 0%nat =
      (0%nat, inr ([] ++ added)) /\
    map (fun e => df_cell e "city") added = map PStr demo_cities /\
    (forall e, In e added ->
       dict_keys e = weather_keys /\ dict_lookup e "status" = Some (PStr "demo")).
Proof.
  intros draws. split; [cbn; lia|].
  exact (demo_weather_five_cities (owm_provider (PDict [])) 0%Z (fun _ => "?") draws [] 0%nat
           ltac:(cbn; lia)).
Defined.

Lemma time_replace_hm_same_day_witness :
  (0 <= 6 < 24)%Z /\ (0 <= 30 < 60)%Z /\
  (time_replace_hm 1700000123000000 6 30 / 86400000000 = 1700000123000000 / 86400000000)%Z /\
  (time_replace_hm 1700000123000000 6 30 mod 86400000000 =
     6 * 3600000000 + 30 * 60000000 + 1700000123000000 mod 60000000)%Z.
Proof.
  split; [lia|]. split; [lia|].
  exact (time_replace_hm_same_day 1700000123000000 6 30 ltac:(lia) ltac:(lia)).
Defined.


Lemma value_counts_spec_witness :
  let vs := [PStr "Clear"; PNone; PStr "Rain"; PStr "Clear"] in
  (forall v, In v vs -> v = PNone \/ exists s, v = PStr s) /\
  value_counts vs = [(PStr "Clear", 2%nat); (PStr "Rain", 1%nat)] /\
  NoDup (map fst (value_counts vs)) /\
  (forall x, In x (map fst (value_counts vs)) <-> In x vs /\ x <> PNone) /\
  (forall x c, In (x, c) (value_counts vs) -> c = count_val x vs) /\
  Sorted count_desc (value_counts vs).
Proof.
  intros vs.
  assert (H : forall v, In v vs -> v = PNone \/ exists s, v = PStr s).
  { intros v Hv. destruct Hv as [<-|[<-|[<-|[<-|[]]]]];
      first [left; reflexivity|right; eexists; reflexivity]. }
  split; [exact H|]. split; [vm_compute; reflexivity|].
  exact (value_counts_spec vs H).
Defined.

